(** * P2P privacy communications: the peer node of [main.py]

    A shallow embedding of [CryptoManager] and [P2PNode] from [main.py], and
    the properties of the message dispatch, the per-message encryption and
    the call signalling that the specification states about them.

    Conventions of the embedding.
    - Python [bytes] are [list byte]. Python [str] is [string]: a text is
      represented by its UTF-8 encoding, so that [str.encode()] is
      [list_byte_of_string] and [bytes.decode()] checks well-formedness. (A
      [str] with a lone surrogate has no encoding and no representation.)
    - A value that comes out of [json.loads] is a [pyval]; a dictionary is
      the list of its items, each key once.
    - [base64] is modelled concretely: the encoder by groups of three bytes,
      the decoder as the lenient loop of [binascii.a2b_base64] (CPython 3.11
      and later) that [base64.b64decode] runs by default.
    - The [cryptography] package is modelled by the Fernet token format over
      the primitives it calls (PBKDF2, AES-CBC, HMAC). These are the fields
      of the class [CryptoPrimitives]; what is assumed of them is the class
      [CryptoLaws].
    - A node is a record; its methods run in a small monad that threads the
      node, an output trace of the effects (datagrams, callbacks, threads,
      log lines) and exceptions. What a method reads from outside (clock,
      entropy, the fate of a socket write, the datagrams received) is an
      argument. Callbacks are recorded, not run. *)

From Stdlib Require Import NArith ZArith List String Ascii Bool Lia.
From Stdlib Require Import DecimalString.
From Stdlib.Strings Require Import Byte.
From stdpp Require Import base option list gmap strings.
Import ListNotations.

Set Warnings "-register-all".

Local Open Scope string_scope.
Local Open Scope list_scope.
Local Open Scope nat_scope.

(** ** Python values, as [json.loads] produces them *)

Inductive pyval : Type :=
| PyNone
| PyBool (b : bool)
| PyInt (z : Z)
| PyFloat (literal : string)
| PyStr (s : string)
| PyList (l : list pyval)
| PyDict (items : list (string * pyval)).

(** [d.get(key)]: the value stored under [key], [None] when absent. *)
Fixpoint dict_get (items : list (string * pyval)) (key : string) : pyval :=
  match items with
  | [] => PyNone
  | (k, v) :: rest => if String.eqb k key then v else dict_get rest key
  end.

(** [v == s] for a string literal [s]: only a [str] equals a [str]. *)
Definition py_eq_str (v : pyval) (s : string) : bool :=
  match v with
  | PyStr t => String.eqb t s
  | _ => false
  end.

(** ** Bytes *)

#[global] Instance byte_eq_dec : EqDecision byte.
Proof.
  intros x y. destruct (Byte.eqb x y) eqn:E.
  - left. now apply Byte.byte_dec_bl.
  - right. now apply Byte.eqb_false.
Defined.

(** Storing into an [unsigned char]: the value modulo 256. *)
Definition uchar (n : N) : byte :=
  match Byte.of_N (n mod 256) with
  | Some b => b
  | None => x00
  end.

(** [n.to_bytes(length, "big")], most significant byte first. *)
Fixpoint to_bytes_big (len : nat) (n : N) : list byte :=
  match len with
  | O => []
  | S len' => to_bytes_big len' (n / 256) ++ [uchar n]
  end.

(** The number of positions at which two byte strings differ. *)
Fixpoint hamming (a b : list byte) : nat :=
  match a, b with
  | x :: a', y :: b' => (if Byte.eqb x y then 0 else 1) + hamming a' b'
  | _, _ => 0
  end.

(** ** Base64 *)

Module Base64.

Definition table_b2a_base64 : list byte :=
  list_byte_of_string
    "ABCDEFGHIJKLMNOPQRSTUVWXYZabcdefghijklmnopqrstuvwxyz0123456789+/".

Definition BASE64_PAD : byte := "="%byte.

(** The character of a 6-bit value. *)
Definition b2a (sextet : N) : byte :=
  nth (N.to_nat sextet) table_b2a_base64 BASE64_PAD.

Fixpoint index_from (ch : byte) (table : list byte) (i : N) : N :=
  match table with
  | [] => 255
  | x :: rest => if Byte.eqb x ch then i else index_from ch rest (N.succ i)
  end.

(** [table_a2b_base64[ch]]: the 6-bit value of an alphabet character, and a
    value of 64 or more for every other character. *)
Definition table_a2b_base64 (ch : byte) : N := index_from ch table_b2a_base64 0.

(** [binascii.b2a_base64(data, newline=False)]: three bytes give four
    characters; a last group of one or two bytes is padded with [=]. *)
Fixpoint b2a_base64 (data : list byte) : list byte :=
  match data with
  | [] => []
  | [a] =>
      let a := Byte.to_N a in
      [b2a (N.shiftr a 2); b2a (N.shiftl (N.land a 3) 4);
       BASE64_PAD; BASE64_PAD]
  | [a; b] =>
      let a := Byte.to_N a in
      let b := Byte.to_N b in
      [b2a (N.shiftr a 2);
       b2a (N.lor (N.shiftl (N.land a 3) 4) (N.shiftr b 4));
       b2a (N.shiftl (N.land b 15) 2);
       BASE64_PAD]
  | a :: b :: c :: rest =>
      let a := Byte.to_N a in
      let b := Byte.to_N b in
      let c := Byte.to_N c in
      b2a (N.shiftr a 2)
      :: b2a (N.lor (N.shiftl (N.land a 3) 4) (N.shiftr b 4))
      :: b2a (N.lor (N.shiftl (N.land b 15) 2) (N.shiftr c 6))
      :: b2a (N.land c 63)
      :: b2a_base64 rest
  end.

(** [binascii.a2b_base64(data)] in its default, non-strict mode. The loop
    keeps the position in the current group of four ([quad_pos]), the bits
    left over from the previous character ([leftchar]) and the number of
    [=] seen since the last data character ([pads]). Characters outside the
    alphabet are skipped; a pad that completes a group ends the decoding
    ([goto done]); input that ends inside a group is an error. *)
Fixpoint a2b_loop (quad_pos : nat) (leftchar : N) (pads : nat)
         (ascii : list byte) : option (list byte) :=
  match ascii with
  | [] => if Nat.eqb quad_pos 0 then Some [] else None
  | ch :: rest =>
      if Byte.eqb ch BASE64_PAD then
        if Nat.leb 2 quad_pos then
          if Nat.leb 4 (quad_pos + S pads) then Some []
          else a2b_loop quad_pos leftchar (S pads) rest
        else a2b_loop quad_pos leftchar pads rest
      else
        let this_ch := table_a2b_base64 ch in
        if N.leb 64 this_ch then a2b_loop quad_pos leftchar pads rest
        else
          match quad_pos with
          | 0 => a2b_loop 1 this_ch 0 rest
          | 1 =>
              cons (uchar (N.lor (N.shiftl leftchar 2) (N.shiftr this_ch 4)))
                <$> a2b_loop 2 (N.land this_ch 15) 0 rest
          | 2 =>
              cons (uchar (N.lor (N.shiftl leftchar 4) (N.shiftr this_ch 2)))
                <$> a2b_loop 3 (N.land this_ch 3) 0 rest
          | _ =>
              cons (uchar (N.lor (N.shiftl leftchar 6) this_ch))
                <$> a2b_loop 0 0 0 rest
          end
  end.

Definition a2b_base64 (ascii : list byte) : option (list byte) :=
  a2b_loop 0 0 0 ascii.

(** [base64.b64encode] and [base64.b64decode] with their defaults. *)
Definition b64encode (s : list byte) : list byte := b2a_base64 s.
Definition b64decode (s : list byte) : option (list byte) := a2b_base64 s.

(** The URL-safe alphabet replaces [+] by [-] and [/] by [_]. *)
Definition urlsafe_encode_translation (ch : byte) : byte :=
  if Byte.eqb ch "+"%byte then "-"%byte
  else if Byte.eqb ch "/"%byte then "_"%byte
  else ch.

Definition urlsafe_decode_translation (ch : byte) : byte :=
  if Byte.eqb ch "-"%byte then "+"%byte
  else if Byte.eqb ch "_"%byte then "/"%byte
  else ch.

Definition urlsafe_b64encode (s : list byte) : list byte :=
  map urlsafe_encode_translation (b64encode s).

Definition urlsafe_b64decode (s : list byte) : option (list byte) :=
  b64decode (map urlsafe_decode_translation s).

(** *** Vocabulary of the properties *)

(** What the decoder reads where the encoder wrote the 6-bit value [s]. *)
Definition sextet_char (s : N) : byte :=
  urlsafe_decode_translation (urlsafe_encode_translation (b2a s)).

(** The 6-bit values that the neighbouring bytes [a], [b] contribute. *)
Definition hi6 (a : N) : N := N.shiftr a 2.
Definition lo2_hi4 (a b : N) : N :=
  N.lor (N.shiftl (N.land a 3) 4) (N.shiftr b 4).
Definition lo4_hi2 (a b : N) : N :=
  N.lor (N.shiftl (N.land a 15) 2) (N.shiftr b 6).
Definition lo6 (a : N) : N := N.land a 63.

(** The bounds of these values and the way the decoder joins them, as one
    check that is run over all pairs of bytes. *)
Definition sextets_ok (a b : N) : bool :=
  (hi6 a <? 64)%N && (lo2_hi4 a b <? 64)%N
  && (lo4_hi2 a b <? 64)%N && (lo6 a <? 64)%N
  && N.eqb (N.lor (N.shiftl (hi6 a) 2) (N.shiftr (lo2_hi4 a b) 4)) a
  && N.eqb (N.land (lo2_hi4 a b) 15) (N.shiftr b 4)
  && N.eqb (N.lor (N.shiftl (N.shiftr a 4) 4) (N.shiftr (lo4_hi2 a b) 2)) a
  && N.eqb (N.land (lo4_hi2 a b) 3) (N.shiftr b 6)
  && N.eqb (N.lor (N.shiftl (N.shiftr a 6) 6) (lo6 a)) a
  && N.eqb (lo2_hi4 a 0) (N.shiftl (N.land a 3) 4)
  && N.eqb (lo4_hi2 a 0) (N.shiftl (N.land a 15) 2).

(** The alphabet character after [ch]. *)
Definition next_char (ch : byte) : byte :=
  urlsafe_encode_translation
    (b2a (table_a2b_base64 (urlsafe_decode_translation ch) + 1)).

(** The text with the character before a final pair of pads replaced by
    the next one of the alphabet. *)
Fixpoint bump_before_pads (s : list byte) : list byte :=
  match s with
  | [] => []
  | ch :: rest =>
      match rest with
      | [_; _] => next_char ch :: rest
      | _ => ch :: bump_before_pads rest
      end
  end.

(** The encoding of a single byte: its second character carries four bits
    that the decoder drops. *)
Definition bump_ok (n : N) : bool :=
  let c := urlsafe_b64encode [uchar n] in
  bool_decide (urlsafe_b64decode (bump_before_pads c) = Some [uchar n])
  && Nat.eqb (hamming c (bump_before_pads c)) 1
  && Nat.eqb (length (bump_before_pads c)) (length c).

End Base64.

(** ** Text *)

Module Utf8.

Definition between (lo hi : N) (b : byte) : bool :=
  (lo <=? Byte.to_N b)%N && (Byte.to_N b <=? hi)%N.

Definition continuation : byte -> bool := between 128 191.

(** Well-formed UTF-8: shortest forms only, no surrogates, at most
    U+10FFFF. This is what [bytes.decode()] accepts. *)
Fixpoint well_formed (bs : list byte) : bool :=
  match bs with
  | [] => true
  | b0 :: r0 =>
      if between 0 127 b0 then well_formed r0
      else
        match r0 with
        | [] => false
        | b1 :: r1 =>
            if between 194 223 b0 then continuation b1 && well_formed r1
            else
              match r1 with
              | [] => false
              | b2 :: r2 =>
                  if between 224 239 b0 then
                    (if between 224 224 b0 then between 160 191 b1
                     else if between 237 237 b0 then between 128 159 b1
                     else continuation b1)
                    && continuation b2 && well_formed r2
                  else
                    match r2 with
                    | [] => false
                    | b3 :: r3 =>
                        between 240 244 b0
                        && (if between 240 240 b0 then between 144 191 b1
                            else if between 244 244 b0 then between 128 143 b1
                            else continuation b1)
                        && continuation b2 && continuation b3
                        && well_formed r3
                    end
              end
        end
  end.

(** [s.encode()] *)
Definition encode (s : string) : list byte := list_byte_of_string s.

(** [b.decode()], [None] standing for [UnicodeDecodeError]. *)
Definition decode (b : list byte) : option string :=
  if well_formed b then Some (string_of_list_byte b) else None.

(** The strings that stand for a Python text. *)
Definition is_text (s : string) : Prop := well_formed (encode s) = true.

End Utf8.

(** ** PKCS7 padding to the AES block size *)

Module PKCS7.

Definition block_size : nat := 16.

Definition pad (data : list byte) : list byte :=
  let n := block_size - length data mod block_size in
  data ++ repeat (uchar (N.of_nat n)) n.

(** [None] stands for the [ValueError] of [unpadder.finalize()]. *)
Definition unpad (data : list byte) : option (list byte) :=
  if Nat.eqb (length data) 0 || negb (Nat.eqb (length data mod block_size) 0)
  then None
  else
    let last_byte := List.last data x00 in
    let n := N.to_nat (Byte.to_N last_byte) in
    if Nat.eqb n 0 || Nat.ltb block_size n then None
    else if forallb (Byte.eqb last_byte) (skipn (length data - n) data)
         then Some (firstn (length data - n) data)
         else None.

End PKCS7.

(** ** The primitives of the [cryptography] package *)

(** Key derivation, the block cipher mode and the MAC are taken as given.
    [AES_CBC_decrypt] answers [None] where the library raises [ValueError]. *)
Class CryptoPrimitives : Type := {
  PBKDF2HMAC_SHA256_derive :
    forall (length : nat) (salt : list byte) (iterations : N)
           (key_material : list byte), list byte;
  AES_CBC_encrypt :
    forall (key iv padded_data : list byte), list byte;
  AES_CBC_decrypt :
    forall (key iv ciphertext : list byte), option (list byte);
  HMAC_SHA256 :
    forall (key data : list byte), list byte
}.

(** What the library documents of them: output lengths, and that CBC
    decryption undoes CBC encryption of whole blocks under one key and IV. *)
Class CryptoLaws `{CryptoPrimitives} : Prop := {
  derive_length : forall len salt iterations key_material,
    length (PBKDF2HMAC_SHA256_derive len salt iterations key_material) = len;
  cbc_length : forall key iv data,
    length (AES_CBC_encrypt key iv data) = length data;
  cbc_decrypt_encrypt : forall key iv data,
    length key = 16 -> length iv = 16 ->
    length data mod 16 = 0 ->
    AES_CBC_decrypt key iv (AES_CBC_encrypt key iv data) = Some data;
  hmac_length : forall key data, length (HMAC_SHA256 key data) = 32
}.

(** An instance to run the definitions with: it pads the key material, moves
    every byte by the first byte of key and IV, and sums the bytes for a tag.
    It has the lengths and the round trip of the real primitives and none of
    their strength. *)
Module Toy.

Definition add_byte (k x : byte) : byte := uchar (Byte.to_N x + Byte.to_N k).
Definition sub_byte (k x : byte) : byte :=
  uchar (Byte.to_N x + 256 - Byte.to_N k).

Definition mask (key iv : list byte) : byte :=
  add_byte (hd x00 key) (hd x00 iv).

Definition derive (len : nat) (salt : list byte) (iterations : N)
           (key_material : list byte) : list byte :=
  firstn len (key_material ++ salt ++ repeat x00 len).

Definition cbc_encrypt (key iv data : list byte) : list byte :=
  map (add_byte (mask key iv)) data.

Definition cbc_decrypt (key iv data : list byte) : option (list byte) :=
  if Nat.eqb (length data mod 16) 0
  then Some (map (sub_byte (mask key iv)) data)
  else None.

Definition hmac (key data : list byte) : list byte :=
  repeat (fold_right add_byte (hd x00 key) data) 32.

Definition primitives : CryptoPrimitives := {|
  PBKDF2HMAC_SHA256_derive := derive;
  AES_CBC_encrypt := cbc_encrypt;
  AES_CBC_decrypt := cbc_decrypt;
  HMAC_SHA256 := hmac
|}.

End Toy.

(** ** Fernet tokens *)

Section Crypto.
Context `{prims : CryptoPrimitives}.

(** [Fernet(key)] keeps the two halves of the decoded key. *)
Record Fernet : Type := {
  _signing_key : list byte;
  _encryption_key : list byte
}.

(** [Fernet.__init__]: [None] stands for the [ValueError] raised when the
    key does not decode to 32 bytes. *)
Definition Fernet_init (key : list byte) : option Fernet :=
  match Base64.urlsafe_b64decode key with
  | Some k =>
      if Nat.eqb (length k) 32
      then Some {| _signing_key := firstn 16 k;
                   _encryption_key := skipn 16 k |}
      else None
  | None => None
  end.

(** [Fernet._encrypt_from_parts]: version byte, timestamp, IV, ciphertext
    and the MAC over them, in URL-safe base64. *)
Definition Fernet_encrypt_from_parts (f : Fernet) (data : list byte)
           (current_time : N) (iv : list byte) : list byte :=
  let padded_data := PKCS7.pad data in
  let ciphertext := AES_CBC_encrypt (_encryption_key f) iv padded_data in
  let basic_parts :=
    x80 :: to_bytes_big 8 current_time ++ iv ++ ciphertext in
  let hmac := HMAC_SHA256 (_signing_key f) basic_parts in
  Base64.urlsafe_b64encode (basic_parts ++ hmac).

(** The part of a decoded token that the MAC covers, and the MAC. *)
Definition signed_part (data : list byte) : list byte :=
  firstn (length data - 32) data.

Definition tag_part (data : list byte) : list byte :=
  skipn (length data - 32) data.

(** [Fernet._get_unverified_token_data] after the decoding, then
    [Fernet._decrypt_data] without a time-to-live: the checks of version
    and length, [_verify_signature], AES-CBC and the unpadding. *)
Definition Fernet_decrypt_data (f : Fernet) (data : list byte)
  : option (list byte) :=
  match data with
  | [] => None
  | version :: _ =>
      if negb (bool_decide (version = x80)) then None
      else if Nat.ltb (length data) 9 then None
      else
        if negb (bool_decide
                   (HMAC_SHA256 (_signing_key f) (signed_part data)
                    = tag_part data))
        then None
        else
          let iv := firstn 16 (skipn 9 data) in
          let ciphertext :=
            firstn (length data - 32 - 25) (skipn 25 data) in
          match AES_CBC_decrypt (_encryption_key f) iv ciphertext with
          | None => None
          | Some plaintext_padded => PKCS7.unpad plaintext_padded
          end
  end.

(** [Fernet.decrypt(token)]: [None] stands for [InvalidToken] (and for the
    [ValueError] of a short IV). *)
Definition Fernet_decrypt (f : Fernet) (token : list byte)
  : option (list byte) :=
  match Base64.urlsafe_b64decode token with
  | None => None
  | Some data => Fernet_decrypt_data f data
  end.

(** ** [class CryptoManager] *)

Record CryptoManager : Type := {
  password : list byte;
  salt : list byte;
  key : list byte;
  cipher : Fernet
}.

(** [CryptoManager._derive_key] *)
Definition _derive_key (password salt : list byte) : list byte :=
  Base64.urlsafe_b64encode
    (PBKDF2HMAC_SHA256_derive 32 salt 100000 password).

(** [CryptoManager.__init__]; [urandom16] is the result of
    [os.urandom(16)]. *)
Definition CryptoManager_init (password : string) (urandom16 : list byte)
  : option CryptoManager :=
  let password := Utf8.encode password in
  let salt := urandom16 in
  let key := _derive_key password salt in
  match Fernet_init key with
  | Some cipher =>
      Some {| password := password; salt := salt; key := key;
              cipher := cipher |}
  | None => None
  end.

(** What one call of [Fernet.encrypt] reads from outside: the clock, in
    seconds and below 2^64, and 16 fresh bytes. *)
Record entropy : Type := {
  time_time : N;
  os_urandom16 : list byte
}.

(** [CryptoManager.encrypt] *)
Definition encrypt (self : CryptoManager) (e : entropy) (message : string)
  : string :=
  let encrypted :=
    Fernet_encrypt_from_parts (cipher self) (Utf8.encode message)
      (time_time e) (os_urandom16 e) in
  string_of_list_byte (Base64.urlsafe_b64encode encrypted).

Definition DECRYPTION_FAILED : string := "[DECRYPTION FAILED]".

(** The body of the [try] in [CryptoManager.decrypt]; [None] when any
    step raises. A message that is no [str] has no [encode]. *)
Definition decrypt_try (self : CryptoManager) (encrypted_message : pyval)
  : option string :=
  match encrypted_message with
  | PyStr s =>
      match Base64.urlsafe_b64decode (Utf8.encode s) with
      | Some encrypted_data =>
          match Fernet_decrypt (cipher self) encrypted_data with
          | Some decrypted => Utf8.decode decrypted
          | None => None
          end
      | None => None
      end
  | _ => None
  end.

(** [CryptoManager.decrypt] *)
Definition decrypt (self : CryptoManager) (encrypted_message : pyval)
  : string :=
  match decrypt_try self encrypted_message with
  | Some text => text
  | None => DECRYPTION_FAILED
  end.

(** *** Vocabulary of the properties *)

(** What the MAC of the token of [message] covers. *)
Definition basic_parts_of (self : CryptoManager) (e : entropy)
           (message : string) : list byte :=
  x80 :: to_bytes_big 8 (time_time e) ++ os_urandom16 e
      ++ AES_CBC_encrypt (_encryption_key (cipher self)) (os_urandom16 e)
           (PKCS7.pad (Utf8.encode message)).

(** The bytes that the two base64 layers of a ciphertext decode to. *)
Definition raw_token (ciphertext : string) : option (list byte) :=
  match Base64.urlsafe_b64decode (Utf8.encode ciphertext) with
  | Some token => Base64.urlsafe_b64decode token
  | None => None
  end.

(** The text decodes to a token whose MAC is right for signed bytes other
    than [signed]. *)
Definition carries_other_valid_mac (self : CryptoManager)
           (signed : list byte) (ciphertext : string) : Prop :=
  exists data,
    raw_token ciphertext = Some data
    /\ signed_part data <> signed
    /\ HMAC_SHA256 (_signing_key (cipher self)) (signed_part data)
       = tag_part data.

End Crypto.

(** Two texts of one length that differ in exactly one byte. *)
Definition single_byte_change (c c' : string) : bool :=
  Nat.eqb (length (Utf8.encode c)) (length (Utf8.encode c'))
  && Nat.eqb (hamming (Utf8.encode c) (Utf8.encode c')) 1.

(** ** Effects of a node *)

Inductive exn : Type :=
| AttributeError
| KeyError
| OSError
| UnicodeDecodeError
| JSONDecodeError
| BinasciiError.

(** The lines written to the log, by the place that writes them. *)
Inductive log_record : Type :=
| AddedPeer (username : string)
| RemovedPeer (username : string)
| PeerNotFound (recipient : string)
| SentMessage (msg_type recipient : string)
| FailedToSend (recipient : string)
| CallRequestSent (recipient : string)
| CallAcceptedWith (caller : string)
| CallEnded
| DecryptionFailed
| ErrorReceivingData
| ErrorPlayingAudio
| NodeShutdown.

(** What a method does to the world outside the node object. A datagram is
    recorded by the packet that [json.dumps] serialises. *)
Inductive event : Type :=
| Sendto (packet : pyval) (addr : string * Z)
| LogInfo (r : log_record)
| LogError (r : log_record)
| MessageCallback (sender : pyval) (text : string) (kind : string)
| CallCallback (kind : string) (peer : pyval)
| PeerCallback
| RecordThread
| PlayThread (audio_data : list byte)
| SocketClose.

Definition is_sendto (ev : event) : bool :=
  match ev with
  | Sendto _ _ => true
  | _ => false
  end.

(** What a method reads from the world: the wall clock, the entropy of the
    cipher, and whether the socket accepts the datagram. *)
Record env : Type := {
  datetime_now_isoformat : string;
  fernet_entropy : entropy;
  sendto_raises : bool
}.

(** One return of [socket.recvfrom(4096)]. *)
Inductive recv : Type :=
| RecvRaises
| RecvData (data : list byte) (addr : string * Z).

(** ** [class AudioManager] *)

Record AudioManager : Type := {
  audio : bool;  (* a PyAudio instance is present *)
  recording : bool;
  playing : bool
}.

(** ** [class P2PNode] *)

Record P2PNode : Type := {
  username : string;
  crypto : CryptoManager;
  audio_manager : AudioManager;
  port : Z;
  peers : gmap string (string * Z);
  active_connections : gmap string bool;
  in_call : bool;
  call_partner : option string;
  message_callback : bool;  (* the attribute is not None *)
  call_callback : bool;
  peer_callback : bool;
  running : bool
}.

Definition set_peers (v : gmap string (string * Z)) (n : P2PNode) : P2PNode :=
  {| username := username n; crypto := crypto n;
     audio_manager := audio_manager n; port := port n;
     peers := v; active_connections := active_connections n;
     in_call := in_call n; call_partner := call_partner n;
     message_callback := message_callback n;
     call_callback := call_callback n; peer_callback := peer_callback n;
     running := running n |}.

Definition set_active_connections (v : gmap string bool) (n : P2PNode)
  : P2PNode :=
  {| username := username n; crypto := crypto n;
     audio_manager := audio_manager n; port := port n;
     peers := peers n; active_connections := v;
     in_call := in_call n; call_partner := call_partner n;
     message_callback := message_callback n;
     call_callback := call_callback n; peer_callback := peer_callback n;
     running := running n |}.

Definition set_in_call (v : bool) (n : P2PNode) : P2PNode :=
  {| username := username n; crypto := crypto n;
     audio_manager := audio_manager n; port := port n;
     peers := peers n; active_connections := active_connections n;
     in_call := v; call_partner := call_partner n;
     message_callback := message_callback n;
     call_callback := call_callback n; peer_callback := peer_callback n;
     running := running n |}.

Definition set_call_partner (v : option string) (n : P2PNode) : P2PNode :=
  {| username := username n; crypto := crypto n;
     audio_manager := audio_manager n; port := port n;
     peers := peers n; active_connections := active_connections n;
     in_call := in_call n; call_partner := v;
     message_callback := message_callback n;
     call_callback := call_callback n; peer_callback := peer_callback n;
     running := running n |}.

Definition set_recording (v : bool) (n : P2PNode) : P2PNode :=
  {| username := username n; crypto := crypto n;
     audio_manager :=
       {| audio := audio (audio_manager n); recording := v;
          playing := playing (audio_manager n) |};
     port := port n;
     peers := peers n; active_connections := active_connections n;
     in_call := in_call n; call_partner := call_partner n;
     message_callback := message_callback n;
     call_callback := call_callback n; peer_callback := peer_callback n;
     running := running n |}.

Definition set_running (v : bool) (n : P2PNode) : P2PNode :=
  {| username := username n; crypto := crypto n;
     audio_manager := audio_manager n; port := port n;
     peers := peers n; active_connections := active_connections n;
     in_call := in_call n; call_partner := call_partner n;
     message_callback := message_callback n;
     call_callback := call_callback n; peer_callback := peer_callback n;
     running := v |}.

(** ** The monad of the methods: node state, output trace, exceptions *)

Inductive outcome (A : Type) : Type :=
| Returned (a : A)
| Raised (e : exn).
Arguments Returned {A} a.
Arguments Raised {A} e.

Definition M (A : Type) : Type := P2PNode -> outcome A * P2PNode * list event.

Definition ret {A : Type} (a : A) : M A := fun n => (Returned a, n, []).

Definition bind {A B : Type} (c : M A) (k : A -> M B) : M B :=
  fun n =>
    match c n with
    | (Returned a, n1, t1) =>
        match k a n1 with
        | (r, n2, t2) => (r, n2, t1 ++ t2)
        end
    | (Raised e, n1, t1) => (Raised e, n1, t1)
    end.

Notation "x <- c1 ;; c2" := (bind c1 (fun x => c2))
  (at level 100, c1 at next level, right associativity).
Notation "c1 ;; c2" := (bind c1 (fun _ => c2))
  (at level 100, right associativity).

Definition get : M P2PNode := fun n => (Returned n, n, []).
Definition modify (f : P2PNode -> P2PNode) : M unit :=
  fun n => (Returned tt, f n, []).
Definition emit (ev : event) : M unit := fun n => (Returned tt, n, [ev]).
Definition raise {A : Type} (e : exn) : M A := fun n => (Raised e, n, []).

(** [try: body except Exception: handler]; what the body did before it
    raised stays done. *)
Definition try_except {A : Type} (body : M A) (handler : exn -> M A) : M A :=
  fun n =>
    match body n with
    | (Returned a, n1, t1) => (Returned a, n1, t1)
    | (Raised e, n1, t1) =>
        match handler e n1 with
        | (r, n2, t2) => (r, n2, t1 ++ t2)
        end
    end.

Definition when (b : bool) (c : M unit) : M unit := if b then c else ret tt.

(** The parts of a run. *)
Definition result_of {A : Type} (r : outcome A * P2PNode * list event)
  : outcome A := fst (fst r).
Definition node_of {A : Type} (r : outcome A * P2PNode * list event)
  : P2PNode := snd (fst r).
Definition trace_of {A : Type} (r : outcome A * P2PNode * list event)
  : list event := snd r.

(** [bool(s)] of an optional string: neither [None] nor empty. *)
Definition truthy (s : option string) : bool :=
  match s with
  | Some t => negb (String.eqb t "")
  | None => false
  end.

(** The control tokens of a [call] packet. *)
Definition CONTROL_TOKENS : list string :=
  ["call_request"; "call_accepted"; "call_ended"; "call_rejected"].

(** The packet types that [_handle_packet] knows. *)
Definition known_type (msg_type : pyval) : bool :=
  py_eq_str msg_type "text" || py_eq_str msg_type "call"
  || py_eq_str msg_type "audio" || py_eq_str msg_type "link".

(** The call state of a node: the in-call flag and the remote party. *)
Definition call_state (n : P2PNode) : bool * option string :=
  (in_call n, call_partner n).

(** [v == p] for the call partner [p], a [str] or [None]. *)
Definition py_eq_partner (v : pyval) (p : option string) : bool :=
  match v, p with
  | PyStr s, Some t => String.eqb s t
  | PyNone, None => true
  | _, _ => false
  end.

Section Node.
Context `{prims : CryptoPrimitives}.

(** [json.loads], [None] standing for the exception it raises. *)
Variable json_loads : string -> option pyval.

(** *** [AudioManager] methods, as the node calls them *)

Definition start_recording : M unit :=
  n <- get ;;
  if negb (audio (audio_manager n)) then ret tt
  else modify (set_recording true) ;; emit RecordThread.

Definition stop_recording : M unit := modify (set_recording false).

Definition play_audio (audio_data : list byte) : M unit :=
  n <- get ;;
  if negb (audio (audio_manager n)) then ret tt
  else emit (PlayThread audio_data).

(** *** Peers *)

Definition add_peer (username ip : string) (port : Z) : M unit :=
  n <- get ;;
  modify (set_peers (<[username := (ip, port)]> (peers n))) ;;
  modify (set_active_connections
            (<[username := true]> (active_connections n))) ;;
  emit (LogInfo (AddedPeer username)) ;;
  when (peer_callback n) (emit PeerCallback).

Definition remove_peer (username : string) : M unit :=
  n <- get ;;
  match peers n !! username with
  | Some _ =>
      modify (set_peers (delete username (peers n))) ;;
      modify (set_active_connections
                (delete username (active_connections n))) ;;
      emit (LogInfo (RemovedPeer username)) ;;
      when (peer_callback n) (emit PeerCallback)
  | None => ret tt
  end.

(** *** Sending *)

Definition sendto (e : env) (packet : pyval) (addr : string * Z) : M unit :=
  if sendto_raises e then raise OSError else emit (Sendto packet addr).

(** The [packet] dictionary of [send_message]. *)
Definition packet_of (n : P2PNode) (e : env)
           (recipient message msg_type : string) : pyval :=
  let encrypted_msg := encrypt (crypto n) (fernet_entropy e) message in
  PyDict [("type", PyStr msg_type);
          ("sender", PyStr (username n));
          ("recipient", PyStr recipient);
          ("message", PyStr encrypted_msg);
          ("timestamp", PyStr (datetime_now_isoformat e))].

Definition send_message (e : env) (recipient message msg_type : string)
  : M bool :=
  n <- get ;;
  match peers n !! recipient with
  | None =>
      emit (LogError (PeerNotFound recipient)) ;;
      ret false
  | Some _ =>
      let packet := packet_of n e recipient message msg_type in
      try_except
        (addr <- match peers n !! recipient with
                 | Some a => ret a
                 | None => raise KeyError
                 end ;;
         sendto e packet addr ;;
         emit (LogInfo (SentMessage msg_type recipient)) ;;
         ret true)
        (fun _ =>
           emit (LogError (FailedToSend recipient)) ;;
           ret false)
  end.

Definition share_link (e : env) (recipient url : string) : M bool :=
  send_message e recipient url "link".

(** *** Calls *)

Definition start_call (e : env) (recipient : string) : M bool :=
  n <- get ;;
  if in_call n then ret false
  else
    success <- send_message e recipient "call_request" "call" ;;
    when success
      (modify (set_call_partner (Some recipient)) ;;
       emit (LogInfo (CallRequestSent recipient))) ;;
    ret success.

Definition accept_call (e : env) (caller : string) : M bool :=
  n <- get ;;
  if in_call n then ret false
  else
    modify (set_in_call true) ;;
    modify (set_call_partner (Some caller)) ;;
    send_message e caller "call_accepted" "call" ;;
    start_recording ;;
    emit (LogInfo (CallAcceptedWith caller)) ;;
    ret true.

Definition end_call (e : env) : M unit :=
  n <- get ;;
  if negb (in_call n) then ret tt
  else
    when (truthy (call_partner n))
      (send_message e (default "" (call_partner n)) "call_ended" "call" ;;
       ret tt) ;;
    modify (set_in_call false) ;;
    modify (set_call_partner None) ;;
    stop_recording ;;
    emit (LogInfo CallEnded).

Definition _send_audio (e : env) (audio_data : list byte) : M unit :=
  n <- get ;;
  if in_call n && truthy (call_partner n) then
    let audio_b64 := string_of_list_byte (Base64.b64encode audio_data) in
    send_message e (default "" (call_partner n)) audio_b64 "audio" ;;
    ret tt
  else ret tt.

(** *** Receiving *)

(** [self.crypto.decrypt(message)], with the log line of a failure. *)
Definition node_decrypt (message : pyval) : M string :=
  n <- get ;;
  match decrypt_try (crypto n) message with
  | Some text => ret text
  | None => emit (LogError DecryptionFailed) ;; ret DECRYPTION_FAILED
  end.

Definition _handle_packet (packet : pyval) (addr : string * Z) : M unit :=
  match packet with
  | PyDict items =>
      let msg_type := dict_get items "type" in
      let sender := dict_get items "sender" in
      let message := dict_get items "message" in
      n <- get ;;
      if py_eq_str msg_type "text" then
        decrypted_msg <- node_decrypt message ;;
        when (message_callback n)
          (emit (MessageCallback sender decrypted_msg "received"))
      else if py_eq_str msg_type "call" then
        if py_eq_str message "call_request" then
          when (call_callback n) (emit (CallCallback "incoming" sender))
        else if py_eq_str message "call_accepted" then
          modify (set_in_call true) ;;
          start_recording ;;
          when (call_callback n) (emit (CallCallback "accepted" sender))
        else if py_eq_str message "call_ended" then
          modify (set_in_call false) ;;
          modify (set_call_partner None) ;;
          stop_recording ;;
          when (call_callback n) (emit (CallCallback "ended" sender))
        else ret tt
      else if py_eq_str msg_type "audio" then
        if in_call n && py_eq_partner sender (call_partner n) then
          try_except
            (audio_data <- match message with
                           | PyStr s =>
                               match Base64.b64decode (Utf8.encode s) with
                               | Some d => ret d
                               | None => raise BinasciiError
                               end
                           | _ => raise AttributeError
                           end ;;
             play_audio audio_data)
            (fun _ => emit (LogError ErrorPlayingAudio))
        else ret tt
      else if py_eq_str msg_type "link" then
        decrypted_link <- node_decrypt message ;;
        when (message_callback n)
          (emit (MessageCallback sender
                   ("Shared link: " ++ decrypted_link) "link"))
      else ret tt
  | _ => raise AttributeError
  end.

(** One turn of the [while] loop of [_listen]. *)
Definition listen_iteration (r : recv) : M unit :=
  try_except
    (match r with
     | RecvRaises => raise OSError
     | RecvData data addr =>
         match Utf8.decode data with
         | None => raise UnicodeDecodeError
         | Some text =>
             match json_loads text with
             | None => raise JSONDecodeError
             | Some packet => _handle_packet packet addr
             end
         end
     end)
    (fun _ => emit (LogError ErrorReceivingData)).

(** [_listen] over the receptions that follow; it answers those it left
    unread because [running] was off. *)
Fixpoint _listen (receptions : list recv) : M (list recv) :=
  match receptions with
  | [] => ret []
  | r :: rest =>
      n <- get ;;
      if running n then listen_iteration r ;; _listen rest
      else ret receptions
  end.

Definition shutdown (e : env) : M unit :=
  modify (set_running false) ;;
  end_call e ;;
  emit SocketClose ;;
  emit (LogInfo NodeShutdown).

(** *** Vocabulary of the properties *)

(** The datagrams of a trace. *)
Definition transmitted (trace : list event) : list event :=
  List.filter is_sendto trace.

(** The datagram that carries [message] to [recipient], if the recipient
    is a known peer and the socket takes it. *)
Definition datagram_to (n : P2PNode) (e : env)
           (recipient message msg_type : string) : list event :=
  match peers n !! recipient with
  | Some addr =>
      if sendto_raises e then []
      else [Sendto (packet_of n e recipient message msg_type) addr]
  | None => []
  end.

(** The [message] field of a packet. *)
Definition message_field (packet : pyval) : pyval :=
  match packet with
  | PyDict items => dict_get items "message"
  | _ => PyNone
  end.

(** An inbound [call] packet with the given control token. *)
Definition inbound_call (sender : pyval) (recipient token timestamp : string)
  : pyval :=
  PyDict [("type", PyStr "call");
          ("sender", sender);
          ("recipient", PyStr recipient);
          ("message", PyStr token);
          ("timestamp", PyStr timestamp)].

(** The packet dictionary of a reception, when the payload decodes as
    UTF-8 and parses as a JSON object. *)
Definition parsed_dict (r : recv)
  : option (list (string * pyval) * (string * Z)) :=
  match r with
  | RecvRaises => None
  | RecvData data addr =>
      match Utf8.decode data with
      | None => None
      | Some text =>
          match json_loads text with
          | Some (PyDict items) => Some (items, addr)
          | _ => None
          end
      end
  end.

(** The fields of the wire format, and whether a dictionary misses one. *)
Definition REQUIRED_FIELDS : list string :=
  ["type"; "sender"; "recipient"; "message"; "timestamp"].

Definition has_key (items : list (string * pyval)) (key : string) : bool :=
  existsb (fun kv => String.eqb (fst kv) key) items.

Definition lacks_required_field (items : list (string * pyval)) : bool :=
  negb (forallb (has_key items) REQUIRED_FIELDS).

End Node.

(** ** Example nodes, over the toy primitives *)

Module Scenario.

Definition manager (passphrase : string) (urandom16 : list byte)
  : CryptoManager :=
  match @CryptoManager_init Toy.primitives passphrase urandom16 with
  | Some cm => cm
  | None => {| password := []; salt := []; key := [];
               cipher := {| _signing_key := []; _encryption_key := [] |} |}
  end.

Definition node (name passphrase : string) (urandom16 : list byte)
           (known : gmap string (string * Z)) : P2PNode :=
  {| username := name;
     crypto := manager passphrase urandom16;
     audio_manager := {| audio := true; recording := false;
                         playing := false |};
     port := 5000;
     peers := known;
     active_connections := (fun _ => true) <$> known;
     in_call := false;
     call_partner := None;
     message_callback := true;
     call_callback := true;
     peer_callback := true;
     running := true |}.

Definition alice : P2PNode :=
  node "alice" "hunter2" (repeat x01 16)
    (<["bob" := ("localhost", 5001%Z)]>
       (<["carol" := ("localhost", 5002%Z)]> ∅)).

Definition bob : P2PNode :=
  node "bob" "hunter2" (repeat x02 16)
    (<["alice" := ("localhost", 5000%Z)]> ∅).

(** Alice after [start_call("bob")] succeeded: a request is pending. *)
Definition alice_ringing : P2PNode := set_call_partner (Some "bob") alice.

(** Alice in a call with Bob. *)
Definition alice_active : P2PNode :=
  set_in_call true (set_call_partner (Some "bob") alice).

Definition world : env :=
  {| datetime_now_isoformat := "2024-01-01T12:00:00.000000";
     fernet_entropy := {| time_time := 1700000000;
                          os_urandom16 := repeat x07 16 |};
     sendto_raises := false |}.

Definition from_anywhere : string * Z := ("127.0.0.1", 40000%Z).

(** The JSON text of an object with a type and a message and nothing
    else, and a parser that knows this one text. *)
Definition dq : string := String (Ascii.ascii_of_nat 34) EmptyString.

Definition accepted_text : string :=
  "{" ++ dq ++ "type" ++ dq ++ ": " ++ dq ++ "call" ++ dq ++ ", "
      ++ dq ++ "message" ++ dq ++ ": " ++ dq ++ "call_accepted" ++ dq ++ "}".

Definition accepted_items : list (string * pyval) :=
  [("type", PyStr "call"); ("message", PyStr "call_accepted")].

Definition loads_accepted (text : string) : option pyval :=
  if String.eqb text accepted_text then Some (PyDict accepted_items)
  else None.

(** Alice's ciphertext of "hi" in this world, and the same text with its
    last data character [Q] replaced by [R]. *)
Definition hi_ciphertext : string :=
  "Z0FBQUFBQmxVX0VBQndjSEJ3Y0hCd2NIQndjSEJ3Y0hCM0J4RmhZV0ZoWVdGaFlXRmhZV0ZoWVdGaFlXRmhZV0ZoWVdGaFlXRmhZV0ZoWVdGaFlXRmhZV0ZoWVdGaFlXRmc9PQ==".

Definition hi_tampered : string :=
  "Z0FBQUFBQmxVX0VBQndjSEJ3Y0hCd2NIQndjSEJ3Y0hCM0J4RmhZV0ZoWVdGaFlXRmhZV0ZoWVdGaFlXRmhZV0ZoWVdGaFlXRmhZV0ZoWVdGaFlXRmhZV0ZoWVdGaFlXRmc9PR==".

End Scenario.

(** ** The node from its construction on *)

Definition set_callbacks (on_message on_call on_peers : bool) (n : P2PNode)
  : P2PNode :=
  {| username := username n; crypto := crypto n;
     audio_manager := audio_manager n; port := port n;
     peers := peers n; active_connections := active_connections n;
     in_call := in_call n; call_partner := call_partner n;
     message_callback := on_message;
     call_callback := on_call; peer_callback := on_peers;
     running := running n |}.

Section Lifetime.
Context `{prims : CryptoPrimitives}.

(** [json.loads], as in the receive loop. *)
Variable json_loads : string -> option pyval.

(** [P2PNode.__init__], once the socket is bound to [bound_port]:
    [urandom16] is what [os.urandom(16)] gives the crypto manager,
    [pyaudio] tells whether the audio library was imported. [None] stands
    for the [ValueError] of [Fernet(key)]. *)
Definition P2PNode_init (username password : string) (urandom16 : list byte)
           (pyaudio : bool) (bound_port : Z) : option P2PNode :=
  match CryptoManager_init password urandom16 with
  | Some cm =>
      Some {| username := username;
              crypto := cm;
              audio_manager := {| audio := pyaudio; recording := false;
                                  playing := false |};
              port := bound_port;
              peers := ∅;
              active_connections := ∅;
              in_call := false;
              call_partner := None;
              message_callback := false;
              call_callback := false;
              peer_callback := false;
              running := true |}
  | None => None
  end.

(** What happens to a node during its life: the application calls a method
    or assigns the callbacks, the audio thread hands over a chunk, the
    listening thread takes a reception. *)
Inductive action : Type :=
| AddPeer (username ip : string) (port : Z)
| RemovePeer (username : string)
| SendMessage (e : env) (recipient message msg_type : string)
| ShareLink (e : env) (recipient url : string)
| StartCall (e : env) (recipient : string)
| AcceptCall (e : env) (caller : string)
| EndCall (e : env)
| SendAudio (e : env) (audio_data : list byte)
| Receive (r : recv)
| Shutdown (e : env)
| SetCallbacks (on_message on_call on_peers : bool).

Definition perform (a : action) : M unit :=
  match a with
  | AddPeer username ip port => add_peer username ip port
  | RemovePeer username => remove_peer username
  | SendMessage e recipient message msg_type =>
      send_message e recipient message msg_type ;; ret tt
  | ShareLink e recipient url => share_link e recipient url ;; ret tt
  | StartCall e recipient => start_call e recipient ;; ret tt
  | AcceptCall e caller => accept_call e caller ;; ret tt
  | EndCall e => end_call e
  | SendAudio e audio_data => _send_audio e audio_data
  | Receive r => listen_iteration json_loads r
  | Shutdown e => shutdown e
  | SetCallbacks on_message on_call on_peers =>
      modify (set_callbacks on_message on_call on_peers)
  end.

(** The node after one action, and after a sequence of them. *)
Definition after (a : action) (n : P2PNode) : P2PNode :=
  node_of (perform a n).

Definition after_all (actions : list action) (n : P2PNode) : P2PNode :=
  fold_left (fun n a => after a n) actions n.

(** Every peer of the table is marked reachable, and nothing else is. *)
Definition peer_tables_agree (n : P2PNode) : Prop :=
  active_connections n = (fun _ => true) <$> peers n.

(** The microphone is captured only during a call. *)
Definition records_only_in_call (n : P2PNode) : Prop :=
  recording (audio_manager n) = true -> in_call n = true.

(** What one action may do to a node [n] to give [n']: it keeps the name, the
    keys, the port and the audio device; it keeps both peer tables, or
    writes one name into both, or deletes one name from both; it keeps
    the capture flag and the in-call flag, or ends with the in-call flag
    set, or ends with the capture flag cleared; it never sets [running]. *)
Definition small_step (n n' : P2PNode) : Prop :=
  username n' = username n
  /\ crypto n' = crypto n
  /\ port n' = port n
  /\ audio (audio_manager n') = audio (audio_manager n)
  /\ ((peers n' = peers n /\ active_connections n' = active_connections n)
      \/ (exists u addr,
            peers n' = <[u := addr]> (peers n)
            /\ active_connections n' = <[u := true]> (active_connections n))
      \/ (exists u,
            peers n' = delete u (peers n)
            /\ active_connections n' = delete u (active_connections n)))
  /\ ((recording (audio_manager n') = recording (audio_manager n)
       /\ in_call n' = in_call n)
      \/ in_call n' = true
      \/ recording (audio_manager n') = false)
  /\ (running n' = running n \/ running n' = false).

(** The actions that write the peer table. *)
Definition edits_peers (a : action) : bool :=
  match a with
  | AddPeer _ _ _ | RemovePeer _ => true
  | _ => false
  end.

(** An inbound packet of the given type and fields. *)
Definition inbound (msg_type : string) (sender : pyval)
           (recipient : string) (message : pyval) (timestamp : string)
  : pyval :=
  PyDict [("type", PyStr msg_type);
          ("sender", sender);
          ("recipient", PyStr recipient);
          ("message", message);
          ("timestamp", PyStr timestamp)].

End Lifetime.

(** ** The peer list of the window, [class P2PCommApp] *)

(** The line of one peer in [update_peer_list]:
    [f"{username} ({ip}:{port}) - {status}"]. *)
Definition peer_line (username ip : string) (port : Z) (online : bool)
  : string :=
  username ++ " (" ++ ip ++ ":" ++ NilZero.string_of_int (Z.to_int port)
           ++ ") - " ++ (if online then "Online" else "Offline").

(** [update_peer_list]: the lines put into the list box, one for each peer
    (in the order of the table, which the properties do not depend on). *)
Definition update_peer_list (n : P2PNode) : list string :=
  (fun entry : string * (string * Z) =>
     peer_line (fst entry) (fst (snd entry)) (snd (snd entry))
       (default false (active_connections n !! fst entry)))
    <$> map_to_list (peers n).




(** ** Sizes *)

(** The length of the base64 text of [n] bytes. *)
Definition b64_length (n : nat) : nat := 4 * ((n + 2) / 3).

(** The length of the ciphertext of a plaintext of [n] bytes: padding to
    whole blocks, 57 bytes of version, time stamp, IV and MAC, and base64
    twice. *)
Definition ciphertext_length (n : nat) : nat :=
  b64_length (b64_length (57 + 16 * (n / 16 + 1))).

(** The size of the buffer of [recvfrom] in [_listen]. *)
Definition RECV_BUFFER : nat := 4096.

(** ** A life of Carol's node, over the toy primitives *)

Module Life.

Definition carol : P2PNode :=
  {| username := "carol";
     crypto := Scenario.manager "s3cret" (repeat x03 16);
     audio_manager := {| audio := true; recording := false;
                         playing := false |};
     port := 5002;
     peers := ∅;
     active_connections := ∅;
     in_call := false;
     call_partner := None;
     message_callback := false;
     call_callback := false;
     peer_callback := false;
     running := true |}.

(** She registers her callbacks, adds two peers, takes Dave's call, gets a
    datagram, drops a peer and hangs up. *)
Definition day : list action :=
  [SetCallbacks true true true;
   AddPeer "dave" "localhost" 5003;
   AddPeer "erin smith" "10.0.0.7" 6000;
   AcceptCall Scenario.world "dave";
   Receive (RecvData (Utf8.encode Scenario.accepted_text)
              Scenario.from_anywhere);
   RemovePeer "dave";
   EndCall Scenario.world].

(** A text of 2240 bytes and the chunk of one read of the recorder, 1024
    frames of two bytes. *)
Definition long_text : string := string_of_list_byte (repeat "a"%byte 2240).
Definition capture_chunk : list byte := repeat x00 2048.

End Life.

(** * Properties *)

(** ** Checking a property of small numbers by enumeration *)

Lemma N_forall_below (P : N -> bool) (n : nat) :
  forallb P (map N.of_nat (seq 0 n)) = true ->
  forall x : N, (x < N.of_nat n)%N -> P x = true.
Proof.
  intros Hall x Hx.
  rewrite forallb_forall in Hall. apply Hall.
  apply in_map_iff. exists (N.to_nat x). split.
  - apply N2Nat.id.
  - apply in_seq. lia.
Qed.

Lemma N_forall_below2 (P : N -> N -> bool) (n m : nat) :
  forallb (fun x => forallb (P x) (map N.of_nat (seq 0 m)))
          (map N.of_nat (seq 0 n)) = true ->
  forall x y : N, (x < N.of_nat n)%N -> (y < N.of_nat m)%N -> P x y = true.
Proof.
  intros Hall x y Hx Hy.
  pose proof (N_forall_below _ n Hall x Hx) as Hrow.
  exact (N_forall_below _ m Hrow y Hy).
Qed.

Lemma byte_to_N_lt (b : byte) : (Byte.to_N b < N.of_nat 256)%N.
Proof. pose proof (Byte.to_N_bounded b). lia. Qed.

Lemma uchar_to_N (b : byte) : uchar (Byte.to_N b) = b.
Proof.
  unfold uchar. pose proof (Byte.to_N_bounded b).
  rewrite N.mod_small by lia. now rewrite Byte.of_to_N.
Qed.

(** ** Base64: decoding what was encoded *)

Module Base64Facts.
Import Base64.

(** Induction over a byte string by groups of three. *)
Lemma list_ind3 {A : Type} (P : list A -> Prop) :
  P [] ->
  (forall a, P [a]) ->
  (forall a b, P [a; b]) ->
  (forall a b c rest, P rest -> P (a :: b :: c :: rest)) ->
  forall l, P l.
Proof.
  intros H0 H1 H2 H3.
  refine (fix IH l :=
            match l with
            | [] => H0
            | [a] => H1 a
            | [a; b] => H2 a b
            | a :: b :: c :: rest => H3 a b c rest (IH rest)
            end).
Qed.

Lemma length_b2a_base64 (data : list byte) :
  length (b2a_base64 data) = 4 * ((length data + 2) / 3).
Proof.
  induction data as [|a|a b|a b c rest IH] using list_ind3; try reflexivity.
  cbn [b2a_base64 length]. rewrite IH.
  replace (S (S (S (length rest))) + 2) with (length rest + 2 + 1 * 3) by lia.
  rewrite Nat.div_add by lia. lia.
Qed.

Lemma length_urlsafe_b64encode (data : list byte) :
  length (urlsafe_b64encode data) = 4 * ((length data + 2) / 3).
Proof.
  unfold urlsafe_b64encode, b64encode.
  rewrite length_map. apply length_b2a_base64.
Qed.

(** A character of the URL-safe alphabet is no pad, and is read back as
    the 6-bit value it was written for. *)
Lemma sextet_char_spec (s : N) :
  (s < 64)%N ->
  Byte.eqb (sextet_char s) BASE64_PAD = false
  /\ table_a2b_base64 (sextet_char s) = s.
Proof.
  intros Hs.
  pose proof (N_forall_below
    (fun s => negb (Byte.eqb (sextet_char s) BASE64_PAD)
              && N.eqb (table_a2b_base64 (sextet_char s)) s) 64) as H.
  specialize (H ltac:(vm_compute; reflexivity) s Hs).
  apply andb_true_iff in H as [Hp Ht].
  split; [now apply negb_true_iff | now apply N.eqb_eq].
Qed.

Lemma sextets_ok_all (a b : N) :
  (a < 256)%N -> (b < 256)%N -> sextets_ok a b = true.
Proof.
  apply (N_forall_below2 sextets_ok 256 256).
  vm_compute. reflexivity.
Qed.

Ltac from_table a b :=
  let H := fresh "H" in
  pose proof (sextets_ok_all (Byte.to_N a) (Byte.to_N b)
                (byte_to_N_lt a) (byte_to_N_lt b)) as H;
  unfold sextets_ok in H;
  repeat (apply andb_true_iff in H; destruct H as [H ?]);
  repeat match goal with
         | E : N.eqb _ _ = true |- _ => apply N.eqb_eq in E
         | E : N.ltb _ _ = true |- _ => apply N.ltb_lt in E
         end.

Lemma hi6_lt (a : byte) : (hi6 (Byte.to_N a) < 64)%N.
Proof. from_table a a. assumption. Qed.

Lemma lo2_hi4_lt (a b : byte) : (lo2_hi4 (Byte.to_N a) (Byte.to_N b) < 64)%N.
Proof. from_table a b. assumption. Qed.

Lemma lo4_hi2_lt (a b : byte) : (lo4_hi2 (Byte.to_N a) (Byte.to_N b) < 64)%N.
Proof. from_table a b. assumption. Qed.

Lemma lo6_lt (a : byte) : (lo6 (Byte.to_N a) < 64)%N.
Proof. from_table a a. assumption. Qed.

Lemma join_byte1 (a b : byte) :
  uchar (N.lor (N.shiftl (hi6 (Byte.to_N a)) 2)
               (N.shiftr (lo2_hi4 (Byte.to_N a) (Byte.to_N b)) 4)) = a.
Proof.
  from_table a b.
  match goal with E : N.lor (N.shiftl (hi6 _) 2) _ = _ |- _ => rewrite E end.
  apply uchar_to_N.
Qed.

Lemma left_after2 (a b : byte) :
  N.land (lo2_hi4 (Byte.to_N a) (Byte.to_N b)) 15 = N.shiftr (Byte.to_N b) 4.
Proof. from_table a b. assumption. Qed.

Lemma join_byte2 (a b : byte) :
  uchar (N.lor (N.shiftl (N.shiftr (Byte.to_N a) 4) 4)
               (N.shiftr (lo4_hi2 (Byte.to_N a) (Byte.to_N b)) 2)) = a.
Proof.
  from_table a b.
  match goal with
    E : N.lor (N.shiftl (N.shiftr _ 4) 4) _ = _ |- _ => rewrite E
  end.
  apply uchar_to_N.
Qed.

Lemma left_after3 (a b : byte) :
  N.land (lo4_hi2 (Byte.to_N a) (Byte.to_N b)) 3 = N.shiftr (Byte.to_N b) 6.
Proof. from_table a b. assumption. Qed.

Lemma join_byte3 (a : byte) :
  uchar (N.lor (N.shiftl (N.shiftr (Byte.to_N a) 6) 6) (lo6 (Byte.to_N a)))
  = a.
Proof.
  from_table a a.
  match goal with
    E : N.lor (N.shiftl (N.shiftr _ 6) 6) _ = _ |- _ => rewrite E
  end.
  apply uchar_to_N.
Qed.

Lemma tail_sextet1 (a : byte) :
  N.shiftl (N.land (Byte.to_N a) 3) 4 = lo2_hi4 (Byte.to_N a) (Byte.to_N x00).
Proof. from_table a a. symmetry. assumption. Qed.

Lemma tail_sextet2 (a : byte) :
  N.shiftl (N.land (Byte.to_N a) 15) 2 = lo4_hi2 (Byte.to_N a) (Byte.to_N x00).
Proof. from_table a a. symmetry. assumption. Qed.

(** One step of the decoder on an alphabet character. *)
Lemma a2b_loop_char (quad_pos : nat) (leftchar : N) (pads : nat)
      (s : N) (rest : list byte) :
  (s < 64)%N ->
  a2b_loop quad_pos leftchar pads (sextet_char s :: rest) =
  match quad_pos with
  | 0 => a2b_loop 1 s 0 rest
  | 1 => cons (uchar (N.lor (N.shiftl leftchar 2) (N.shiftr s 4)))
           <$> a2b_loop 2 (N.land s 15) 0 rest
  | 2 => cons (uchar (N.lor (N.shiftl leftchar 4) (N.shiftr s 2)))
           <$> a2b_loop 3 (N.land s 3) 0 rest
  | _ => cons (uchar (N.lor (N.shiftl leftchar 6) s))
           <$> a2b_loop 0 0 0 rest
  end.
Proof.
  intros Hs. destruct (sextet_char_spec s Hs) as [Hpad Htab].
  cbn [a2b_loop]. rewrite Hpad, Htab.
  replace (N.leb 64 s) with false by (symmetry; apply N.leb_gt; lia).
  reflexivity.
Qed.

(** The first two characters of a group give its first byte. *)
Lemma a2b_loop_two (a b : byte) (leftchar : N) (rest : list byte) :
  a2b_loop 0 leftchar 0
    (sextet_char (hi6 (Byte.to_N a))
     :: sextet_char (lo2_hi4 (Byte.to_N a) (Byte.to_N b)) :: rest)
  = cons a <$> a2b_loop 2 (N.shiftr (Byte.to_N b) 4) 0 rest.
Proof.
  rewrite a2b_loop_char by apply hi6_lt.
  rewrite a2b_loop_char by apply lo2_hi4_lt.
  now rewrite join_byte1, left_after2.
Qed.

(** The third character gives the second byte. *)
Lemma a2b_loop_third (b c : byte) (rest : list byte) :
  a2b_loop 2 (N.shiftr (Byte.to_N b) 4) 0
    (sextet_char (lo4_hi2 (Byte.to_N b) (Byte.to_N c)) :: rest)
  = cons b <$> a2b_loop 3 (N.shiftr (Byte.to_N c) 6) 0 rest.
Proof.
  rewrite a2b_loop_char by apply lo4_hi2_lt.
  now rewrite join_byte2, left_after3.
Qed.

(** The fourth character gives the third byte and closes the group. *)
Lemma a2b_loop_fourth (c : byte) (rest : list byte) :
  a2b_loop 3 (N.shiftr (Byte.to_N c) 6) 0
    (sextet_char (lo6 (Byte.to_N c)) :: rest)
  = cons c <$> a2b_loop 0 0 0 rest.
Proof.
  rewrite a2b_loop_char by apply lo6_lt.
  now rewrite join_byte3.
Qed.

(** Round trip of the URL-safe codec. *)
Lemma urlsafe_b64decode_encode (data : list byte) :
  urlsafe_b64decode (urlsafe_b64encode data) = Some data.
Proof.
  unfold urlsafe_b64decode, urlsafe_b64encode, b64decode, b64encode,
    a2b_base64.
  induction data as [|a|a b|a b c rest IH] using list_ind3.
  - reflexivity.
  - cbn [b2a_base64 map]. rewrite tail_sextet1.
    fold (hi6 (Byte.to_N a)).
    fold (sextet_char (hi6 (Byte.to_N a))).
    fold (sextet_char (lo2_hi4 (to_N a) (to_N "000"))).
    rewrite a2b_loop_two. reflexivity.
  - cbn [b2a_base64 map]. rewrite tail_sextet2.
    fold (hi6 (Byte.to_N a)). fold (lo2_hi4 (to_N a) (to_N b)).
    fold (sextet_char (hi6 (Byte.to_N a))).
    fold (sextet_char (lo2_hi4 (to_N a) (to_N b))).
    fold (sextet_char (lo4_hi2 (to_N b) (to_N "000"))).
    rewrite a2b_loop_two, a2b_loop_third. reflexivity.
  - cbn [b2a_base64 map].
    fold (hi6 (Byte.to_N a)). fold (lo2_hi4 (to_N a) (to_N b)).
    fold (lo4_hi2 (to_N b) (to_N c)). fold (lo6 (to_N c)).
    fold (sextet_char (hi6 (Byte.to_N a))).
    fold (sextet_char (lo2_hi4 (to_N a) (to_N b))).
    fold (sextet_char (lo4_hi2 (to_N b) (to_N c))).
    fold (sextet_char (lo6 (to_N c))).
    rewrite a2b_loop_two, a2b_loop_third, a2b_loop_fourth, IH.
    reflexivity.
Qed.

(** *** Text that decodes to the same bytes *)

Lemma bump_cons (x : byte) (r : list byte) :
  length r <> 2 -> bump_before_pads (x :: r) = x :: bump_before_pads r.
Proof.
  destruct r as [|p [|q [|z r']]]; cbn [length]; intros Hlen;
    try reflexivity.
  lia.
Qed.

Lemma hamming_cons (x : byte) (l l' : list byte) :
  hamming (x :: l) (x :: l') = hamming l l'.
Proof. cbn [hamming]. now rewrite (Byte.byte_dec_lb eq_refl). Qed.

Lemma bump_single (a : byte) :
  let c := urlsafe_b64encode [a] in
  urlsafe_b64decode (bump_before_pads c) = Some [a]
  /\ hamming c (bump_before_pads c) = 1
  /\ length (bump_before_pads c) = length c.
Proof.
  pose proof (N_forall_below bump_ok 256 ltac:(vm_compute; reflexivity)
                (Byte.to_N a) (byte_to_N_lt a)) as H.
  unfold bump_ok in H. rewrite uchar_to_N in H.
  apply andb_true_iff in H as [H Hlen].
  apply andb_true_iff in H as [Hdec Hham].
  apply bool_decide_eq_true_1 in Hdec.
  apply Nat.eqb_eq in Hham, Hlen. auto.
Qed.

(** When the data leaves one byte for the last group, the encoded text has
    a neighbour at distance one that decodes to the same data. *)
Lemma bump_decodes (data : list byte) :
  length data mod 3 = 1 ->
  let c := urlsafe_b64encode data in
  urlsafe_b64decode (bump_before_pads c) = Some data
  /\ hamming c (bump_before_pads c) = 1
  /\ length (bump_before_pads c) = length c.
Proof.
  induction data as [|a|a b|a b c rest IH] using list_ind3; intros Hmod.
  - discriminate.
  - apply bump_single.
  - discriminate.
  - assert (Hrest : length rest mod 3 = 1).
    { cbn [length] in Hmod.
      replace (S (S (S (length rest)))) with (length rest + 1 * 3) in Hmod
        by lia.
      now rewrite Nat.Div0.mod_add in Hmod. }
    specialize (IH Hrest). cbv zeta in IH. destruct IH as (Hdec & Hham & Hlen).
    assert (Hlong : 4 <= length (urlsafe_b64encode rest)).
    { rewrite length_urlsafe_b64encode.
      destruct rest as [|x rest']; [discriminate|]. cbn [length].
      assert (1 <= (S (length rest') + 2) / 3)
        by (apply (Nat.Div0.div_le_mono 3 _ 3); lia).
      lia. }
    cbv zeta. unfold urlsafe_b64encode, b64encode in *.
    cbn [b2a_base64 map].
    rewrite !bump_cons by (cbn [length]; lia).
    rewrite !hamming_cons. cbn [length]. rewrite Hlen.
    split; [|split; [exact Hham | reflexivity]].
    unfold urlsafe_b64decode, b64decode, a2b_base64 in *.
    cbn [map].
    fold (hi6 (Byte.to_N a)). fold (lo2_hi4 (to_N a) (to_N b)).
    fold (lo4_hi2 (to_N b) (to_N c)). fold (lo6 (to_N c)).
    fold (sextet_char (hi6 (Byte.to_N a))).
    fold (sextet_char (lo2_hi4 (to_N a) (to_N b))).
    fold (sextet_char (lo4_hi2 (to_N b) (to_N c))).
    fold (sextet_char (lo6 (to_N c))).
    rewrite a2b_loop_two, a2b_loop_third, a2b_loop_fourth, Hdec.
    reflexivity.
Qed.

End Base64Facts.

(** ** Lists of bytes *)

Lemma firstn_app_exact {A : Type} (l1 l2 : list A) (n : nat) :
  n = length l1 -> firstn n (l1 ++ l2) = l1.
Proof.
  intros ->. rewrite firstn_app, Nat.sub_diag, firstn_all. cbn.
  apply app_nil_r.
Qed.

Lemma skipn_app_exact {A : Type} (l1 l2 : list A) (n : nat) :
  n = length l1 -> skipn n (l1 ++ l2) = l2.
Proof.
  intros ->. rewrite skipn_app, Nat.sub_diag, skipn_all. reflexivity.
Qed.

Lemma to_N_uchar_mod (n : N) : Byte.to_N (uchar n) = (n mod 256)%N.
Proof.
  unfold uchar.
  pose proof (N.mod_upper_bound n 256 ltac:(lia)) as Hlt.
  destruct (Byte.of_N (n mod 256)) as [b|] eqn:E.
  - now apply Byte.to_of_N.
  - apply Byte.of_N_None_iff in E. lia.
Qed.

Lemma to_N_uchar (n : N) : (n < 256)%N -> Byte.to_N (uchar n) = n.
Proof. intros Hn. rewrite to_N_uchar_mod. now apply N.mod_small. Qed.

Lemma uchar_congr (n m : N) : (n mod 256 = m mod 256)%N -> uchar n = uchar m.
Proof. unfold uchar. now intros ->. Qed.

Lemma length_to_bytes_big (len : nat) (n : N) :
  length (to_bytes_big len n) = len.
Proof.
  revert n. induction len as [|len IH]; intros n; cbn; [reflexivity|].
  rewrite length_app, IH. cbn. lia.
Qed.

(** ** PKCS7 *)

Module PKCS7Facts.
Import PKCS7.

Lemma pad_amount (len : nat) :
  let n := block_size - len mod block_size in
  1 <= n <= 16 /\ (len + n) mod block_size = 0.
Proof.
  unfold block_size. cbv zeta.
  pose proof (Nat.mod_upper_bound len 16 ltac:(lia)) as Hr.
  pose proof (Nat.div_mod_eq len 16) as Hq.
  split; [lia|].
  replace (len + (16 - len mod 16)) with ((len / 16 + 1) * 16) by lia.
  apply Nat.Div0.mod_mul.
Qed.

Lemma length_pad (data : list byte) :
  length (pad data) mod 16 = 0 /\ length data < length (pad data).
Proof.
  unfold pad. rewrite length_app, repeat_length.
  destruct (pad_amount (length data)) as [Hn Hmod].
  split; [exact Hmod | lia].
Qed.

Lemma forallb_eqb_repeat (x : byte) (n : nat) :
  forallb (Byte.eqb x) (repeat x n) = true.
Proof.
  induction n as [|n IH]; cbn; [reflexivity|].
  rewrite IH, (Byte.byte_dec_lb eq_refl). reflexivity.
Qed.

Lemma last_repeat (data : list byte) (x : byte) (n : nat) :
  1 <= n -> List.last (data ++ repeat x n) x00 = x.
Proof.
  intros Hn. destruct n as [|n]; [lia|].
  cbn [repeat]. rewrite repeat_cons, app_assoc. apply last_last.
Qed.

(** Unpadding undoes padding. *)
Lemma unpad_pad (data : list byte) : unpad (pad data) = Some data.
Proof.
  destruct (length_pad data) as [Hmod Hlt].
  destruct (pad_amount (length data)) as [Hn _]. cbv zeta in Hn.
  unfold unpad. fold block_size in Hmod.
  replace (Nat.eqb (length (pad data)) 0) with false
    by (symmetry; apply Nat.eqb_neq; lia).
  rewrite Hmod. cbn [Nat.eqb negb orb].
  assert (Hlen : length (pad data)
                 = length data + (block_size - length data mod block_size)).
  { unfold pad. now rewrite length_app, repeat_length. }
  rewrite Hlen. unfold pad.
  set (n := block_size - length data mod block_size) in *.
  rewrite last_repeat by lia.
  rewrite to_N_uchar by lia. rewrite Nat2N.id.
  replace (Nat.eqb n 0) with false by (symmetry; apply Nat.eqb_neq; lia).
  replace (Nat.ltb block_size n) with false
    by (symmetry; apply Nat.ltb_ge; unfold block_size; lia).
  cbn [orb].
  replace (length data + n - n) with (length data) by lia.
  rewrite skipn_app_exact by reflexivity.
  rewrite firstn_app_exact by reflexivity.
  now rewrite forallb_eqb_repeat.
Qed.

End PKCS7Facts.

(** ** Base64 text is ASCII, so [.decode()] of it cannot fail *)

Module AsciiFacts.
Import Base64.

Lemma well_formed_ascii (l : list byte) :
  forallb (Utf8.between 0 127) l = true -> Utf8.well_formed l = true.
Proof.
  induction l as [|b l IH]; [reflexivity|].
  cbn [forallb Utf8.well_formed]. intros H.
  apply andb_true_iff in H as [-> Hl]. now apply IH.
Qed.

Lemma b2a_ascii (s : N) :
  Utf8.between 0 127 (b2a s) = true
  /\ Utf8.between 0 127 (urlsafe_encode_translation (b2a s)) = true.
Proof.
  destruct (N.lt_ge_cases s 64) as [Hlt|Hge].
  - pose proof (N_forall_below
      (fun s => Utf8.between 0 127 (b2a s)
                && Utf8.between 0 127 (urlsafe_encode_translation (b2a s)))
      64 ltac:(vm_compute; reflexivity) s Hlt) as H.
    now apply andb_true_iff in H.
  - unfold b2a. rewrite nth_overflow; [split; reflexivity|].
    change (length table_b2a_base64) with 64. lia.
Qed.

Lemma b2a_base64_ascii (data : list byte) :
  forallb (Utf8.between 0 127) (b2a_base64 data) = true
  /\ forallb (Utf8.between 0 127)
       (map urlsafe_encode_translation (b2a_base64 data)) = true.
Proof.
  induction data as [|a|a b|a b c rest [IH1 IH2]]
    using Base64Facts.list_ind3;
    cbn [b2a_base64 map forallb];
    rewrite ?(proj1 (b2a_ascii _)), ?(proj2 (b2a_ascii _)), ?IH1, ?IH2;
    split; reflexivity.
Qed.

Lemma decode_urlsafe_b64encode (data : list byte) :
  Utf8.decode (urlsafe_b64encode data)
  = Some (string_of_list_byte (urlsafe_b64encode data)).
Proof.
  unfold Utf8.decode, urlsafe_b64encode, b64encode.
  now rewrite well_formed_ascii by apply b2a_base64_ascii.
Qed.

Lemma decode_b64encode (data : list byte) :
  Utf8.decode (b64encode data) = Some (string_of_list_byte (b64encode data)).
Proof.
  unfold Utf8.decode, b64encode.
  now rewrite well_formed_ascii by apply b2a_base64_ascii.
Qed.

End AsciiFacts.

(** ** The toy primitives obey the laws *)

Module ToyFacts.
Import Toy.

Lemma sub_add_byte (k x : byte) : sub_byte k (add_byte k x) = x.
Proof.
  unfold sub_byte, add_byte.
  pose proof (Byte.to_N_bounded k). pose proof (Byte.to_N_bounded x).
  rewrite to_N_uchar_mod.
  transitivity (uchar (Byte.to_N x)); [|apply uchar_to_N].
  apply uchar_congr.
  destruct (N.lt_ge_cases (Byte.to_N x + Byte.to_N k) 256) as [Hlt|Hge].
  - rewrite (N.mod_small (_ + _)) by exact Hlt.
    replace (Byte.to_N x + Byte.to_N k + 256 - Byte.to_N k)%N
      with (Byte.to_N x + 1 * 256)%N by lia.
    now rewrite N.Div0.mod_add.
  - replace ((Byte.to_N x + Byte.to_N k) mod 256)%N
      with (Byte.to_N x + Byte.to_N k - 256)%N.
    + f_equal. lia.
    + apply N.mod_unique with (q := 1%N); lia.
Qed.

Lemma laws : @CryptoLaws primitives.
Proof.
  split;
    unfold PBKDF2HMAC_SHA256_derive, AES_CBC_encrypt, AES_CBC_decrypt,
      HMAC_SHA256, primitives.
  - intros len salt iterations key_material. unfold derive.
    rewrite length_firstn, !length_app, repeat_length. lia.
  - intros key iv data. unfold cbc_encrypt. apply length_map.
  - intros key iv data _ _ Hmod. unfold cbc_decrypt, cbc_encrypt.
    rewrite length_map, Hmod. cbn [Nat.eqb]. f_equal.
    rewrite map_map. rewrite <- (map_id data) at 2.
    apply map_ext. intros x. apply sub_add_byte.
  - intros key data. unfold hmac. apply repeat_length.
Qed.

End ToyFacts.

(** ** Fernet and the crypto manager *)

Section CryptoFacts.
Context `{laws : CryptoLaws}.

(** The decoded token of [Fernet] is accepted and gives the data back. *)
Lemma Fernet_decrypt_data_parts (f : Fernet) (data : list byte)
      (current_time : N) (iv : list byte) :
  length (_encryption_key f) = 16 ->
  length iv = 16 ->
  let ct := AES_CBC_encrypt (_encryption_key f) iv (PKCS7.pad data) in
  let basic := x80 :: to_bytes_big 8 current_time ++ iv ++ ct in
  Fernet_decrypt_data f (basic ++ HMAC_SHA256 (_signing_key f) basic)
  = Some data.
Proof.
  intros Hkey Hiv ct basic.
  set (tag := HMAC_SHA256 (_signing_key f) basic).
  assert (Hct : length ct = length (PKCS7.pad data)) by apply cbc_length.
  assert (Htag : length tag = 32) by apply hmac_length.
  assert (Hts : length (to_bytes_big 8 current_time) = 8)
    by apply length_to_bytes_big.
  assert (Hbasic : length basic = 25 + length ct).
  { unfold basic. cbn [length]. rewrite !length_app. lia. }
  assert (Hlen : length (basic ++ tag) = 57 + length ct).
  { rewrite length_app. lia. }
  unfold Fernet_decrypt_data.
  change (basic ++ tag)
    with (x80 :: (to_bytes_big 8 current_time ++ iv ++ ct) ++ tag) at 1.
  cbv beta iota.
  rewrite (bool_decide_eq_true_2 (x80 = x80)) by reflexivity.
  cbn [negb].
  change (x80 :: (to_bytes_big 8 current_time ++ iv ++ ct) ++ tag)
    with (basic ++ tag).
  replace (Nat.ltb (length (basic ++ tag)) 9) with false
    by (symmetry; apply Nat.ltb_ge; lia).
  unfold signed_part, tag_part.
  rewrite firstn_app_exact by lia.
  rewrite skipn_app_exact by lia.
  fold tag. rewrite bool_decide_eq_true_2 by reflexivity. cbn [negb].
  assert (Hrest : basic ++ tag
                  = (x80 :: to_bytes_big 8 current_time) ++ iv ++ ct ++ tag).
  { unfold basic. cbn [app]. f_equal. now rewrite <- !app_assoc. }
  assert (Hiv' : firstn 16 (skipn 9 (basic ++ tag)) = iv).
  { rewrite Hrest, skipn_app_exact by (cbn [length]; lia).
    now apply firstn_app_exact. }
  assert (Hct' : firstn (length (basic ++ tag) - 32 - 25)
                   (skipn 25 (basic ++ tag)) = ct).
  { rewrite Hlen, Hrest, app_assoc.
    rewrite skipn_app_exact by (rewrite length_app; cbn [length]; lia).
    apply firstn_app_exact. lia. }
  rewrite Hiv', Hct'. unfold ct.
  rewrite cbc_decrypt_encrypt;
    [apply PKCS7Facts.unpad_pad | assumption | assumption
    | apply PKCS7Facts.length_pad].
Qed.

(** A token made by [Fernet] is accepted by it and gives the data back. *)
Lemma Fernet_decrypt_encrypt (f : Fernet) (data : list byte)
      (current_time : N) (iv : list byte) :
  length (_encryption_key f) = 16 ->
  length iv = 16 ->
  Fernet_decrypt f (Fernet_encrypt_from_parts f data current_time iv)
  = Some data.
Proof.
  intros Hkey Hiv.
  unfold Fernet_decrypt, Fernet_encrypt_from_parts.
  rewrite Base64Facts.urlsafe_b64decode_encode.
  now apply Fernet_decrypt_data_parts.
Qed.

(** The derived key always makes a [Fernet], with two 16-byte halves. *)
Lemma Fernet_init_derive_key (password salt : list byte) :
  exists f,
    Fernet_init (_derive_key password salt) = Some f
    /\ length (_signing_key f) = 16
    /\ length (_encryption_key f) = 16.
Proof.
  unfold Fernet_init, _derive_key.
  rewrite Base64Facts.urlsafe_b64decode_encode.
  pose proof (derive_length 32 salt 100000 password) as Hlen.
  rewrite Hlen. cbn [Nat.eqb].
  eexists. split; [reflexivity|]. cbn.
  rewrite length_firstn, length_skipn. lia.
Qed.

Lemma CryptoManager_init_total (password : string) (urandom16 : list byte) :
  exists cm,
    CryptoManager_init password urandom16 = Some cm
    /\ length (_encryption_key (cipher cm)) = 16.
Proof.
  unfold CryptoManager_init.
  destruct (Fernet_init_derive_key (Utf8.encode password) urandom16)
    as (f & Hf & _ & Hk).
  rewrite Hf. eexists. split; [reflexivity | exact Hk].
Qed.

Lemma decode_encode_text (s : string) :
  Utf8.is_text s -> Utf8.decode (Utf8.encode s) = Some s.
Proof.
  unfold Utf8.is_text, Utf8.decode. intros ->.
  unfold Utf8.encode. now rewrite string_of_list_byte_of_string.
Qed.

(** Decrypting an encrypted text under the manager that encrypted it. *)
Lemma decrypt_try_encrypt (cm : CryptoManager) (e : entropy) (P : string) :
  length (_encryption_key (cipher cm)) = 16 ->
  length (os_urandom16 e) = 16 ->
  Utf8.is_text P ->
  decrypt_try cm (PyStr (encrypt cm e P)) = Some P.
Proof.
  intros Hk Hiv HP. unfold decrypt_try, encrypt, Utf8.encode.
  rewrite list_byte_of_string_of_list_byte.
  rewrite Base64Facts.urlsafe_b64decode_encode.
  rewrite Fernet_decrypt_encrypt by assumption.
  now apply decode_encode_text.
Qed.

(** The [.decode()] at the end of [encrypt] succeeds, with this result. *)
Lemma encrypt_decodes (cm : CryptoManager) (e : entropy) (message : string) :
  Utf8.decode
    (Base64.urlsafe_b64encode
       (Fernet_encrypt_from_parts (cipher cm) (Utf8.encode message)
          (time_time e) (os_urandom16 e)))
  = Some (encrypt cm e message).
Proof. apply AsciiFacts.decode_urlsafe_b64encode. Qed.

(** The token of a plaintext of less than 16 bytes has 100 characters. *)
Lemma length_short_token (f : Fernet) (data : list byte)
      (current_time : N) (iv : list byte) :
  length iv = 16 ->
  length data < 16 ->
  length (Fernet_encrypt_from_parts f data current_time iv) = 100.
Proof.
  intros Hiv Hshort. unfold Fernet_encrypt_from_parts.
  rewrite Base64Facts.length_urlsafe_b64encode.
  rewrite length_app, hmac_length. cbn [length].
  rewrite !length_app, cbc_length, length_to_bytes_big, Hiv.
  unfold PKCS7.pad. rewrite length_app, repeat_length.
  unfold PKCS7.block_size. rewrite (Nat.mod_small (length data)) by lia.
  replace (S (8 + (16 + (length data + (16 - length data)))) + 32 + 2)
    with 75 by lia.
  reflexivity.
Qed.

(** A ciphertext of a short plaintext has a neighbour, one byte away, that
    decrypts to the same plaintext: the last character before the pads
    carries four bits that the base64 decoder drops. *)
Lemma short_ciphertext_is_malleable (cm : CryptoManager) (e : entropy)
      (P : string) :
  length (_encryption_key (cipher cm)) = 16 ->
  length (os_urandom16 e) = 16 ->
  Utf8.is_text P ->
  length (Utf8.encode P) < 16 ->
  let c := encrypt cm e P in
  let c' := string_of_list_byte (Base64.bump_before_pads (Utf8.encode c)) in
  single_byte_change c c' = true /\ decrypt cm (PyStr c') = P.
Proof.
  intros Hk Hiv HP Hshort c c'.
  set (token := Fernet_encrypt_from_parts (cipher cm) (Utf8.encode P)
                  (time_time e) (os_urandom16 e)).
  assert (Hc : Utf8.encode c = Base64.urlsafe_b64encode token).
  { unfold c, encrypt, Utf8.encode at 1.
    apply list_byte_of_string_of_list_byte. }
  assert (Hc' : Utf8.encode c'
                = Base64.bump_before_pads (Base64.urlsafe_b64encode token)).
  { unfold c', Utf8.encode at 1.
    rewrite list_byte_of_string_of_list_byte. now rewrite Hc. }
  assert (Hmod : length token mod 3 = 1).
  { unfold token. now rewrite length_short_token. }
  destruct (Base64Facts.bump_decodes token Hmod) as (Hdec & Hham & Hlen).
  split.
  - unfold single_byte_change. rewrite Hc', Hc, Hlen, Hham.
    now rewrite Nat.eqb_refl.
  - unfold decrypt, decrypt_try. rewrite Hc', Hdec.
    unfold token. rewrite Fernet_decrypt_encrypt by assumption.
    now rewrite decode_encode_text.
Qed.

End CryptoFacts.

(** ** Size of a ciphertext *)

Section CiphertextSize.
Context `{prims : CryptoPrimitives}.

Lemma base64_length_ge (n : nat) : n <= 4 * ((n + 2) / 3).
Proof.
  pose proof (Nat.div_mod_eq (n + 2) 3) as Hq.
  pose proof (Nat.mod_upper_bound (n + 2) 3 ltac:(lia)) as Hr.
  lia.
Qed.

Lemma length_Fernet_token (f : Fernet) (data : list byte)
      (current_time : N) (iv : list byte) :
  12 <= length (Fernet_encrypt_from_parts f data current_time iv).
Proof.
  unfold Fernet_encrypt_from_parts.
  rewrite Base64Facts.length_urlsafe_b64encode.
  set (raw := _ ++ _).
  assert (Hraw : 9 <= length raw).
  { unfold raw. rewrite length_app. cbn [length].
    rewrite length_app, length_to_bytes_big. lia. }
  pose proof (base64_length_ge (length raw)). lia.
Qed.

(** A ciphertext has at least 16 characters. *)
Lemma length_encrypt (cm : CryptoManager) (e : entropy) (message : string) :
  16 <= length (Utf8.encode (encrypt cm e message)).
Proof.
  unfold encrypt, Utf8.encode at 1.
  rewrite list_byte_of_string_of_list_byte.
  rewrite Base64Facts.length_urlsafe_b64encode.
  pose proof (length_Fernet_token (cipher cm) (Utf8.encode message)
                (time_time e) (os_urandom16 e)) as Htok.
  set (k := length _) in *.
  assert (4 <= (k + 2) / 3).
  { apply (Nat.Div0.div_le_mono 12 (k + 2) 3); lia. }
  lia.
Qed.

(** So it is none of the shorter strings, the control tokens included. *)
Lemma encrypt_not_short (cm : CryptoManager) (e : entropy)
      (message t : string) :
  length (Utf8.encode t) < 16 ->
  String.eqb (encrypt cm e message) t = false.
Proof.
  intros Hshort. apply String.eqb_neq. intros Heq.
  pose proof (length_encrypt cm e message) as Hlen.
  rewrite Heq in Hlen. lia.
Qed.

(** With primitives that keep the documented lengths, a ciphertext is
    longer than its plaintext. *)
Lemma encrypt_longer `{laws : !CryptoLaws} (cm : CryptoManager)
      (e : entropy) (message : string) :
  length (Utf8.encode message)
  < length (Utf8.encode (encrypt cm e message)).
Proof.
  unfold encrypt, Utf8.encode at 2.
  rewrite list_byte_of_string_of_list_byte.
  rewrite Base64Facts.length_urlsafe_b64encode.
  unfold Fernet_encrypt_from_parts.
  rewrite Base64Facts.length_urlsafe_b64encode.
  rewrite length_app, hmac_length. cbn [length].
  rewrite !length_app, cbc_length.
  destruct (PKCS7Facts.length_pad (Utf8.encode message)) as [_ Hpad].
  set (raw := S (_ + _) + 32).
  assert (length (Utf8.encode message) < raw) by (unfold raw; lia).
  pose proof (base64_length_ge raw).
  pose proof (base64_length_ge (4 * ((raw + 2) / 3))).
  lia.
Qed.

End CiphertextSize.

(** ** Runs of the node's methods *)

Section NodeFacts.
Context `{prims : CryptoPrimitives}.

(** The three ways [send_message] ends. *)
Lemma send_message_run (e : env) (recipient message msg_type : string)
      (n : P2PNode) :
  send_message e recipient message msg_type n =
  match peers n !! recipient with
  | None => (Returned false, n, [LogError (PeerNotFound recipient)])
  | Some addr =>
      if sendto_raises e
      then (Returned false, n, [LogError (FailedToSend recipient)])
      else (Returned true, n,
            [Sendto (packet_of n e recipient message msg_type) addr;
             LogInfo (SentMessage msg_type recipient)])
  end.
Proof.
  unfold send_message, bind, get, try_except, sendto.
  destruct (peers n !! recipient) as [addr|]; [|reflexivity].
  destruct (sendto_raises e); reflexivity.
Qed.

Lemma send_message_node (e : env) (recipient message msg_type : string)
      (n : P2PNode) :
  node_of (send_message e recipient message msg_type n) = n.
Proof.
  rewrite send_message_run.
  destruct (peers n !! recipient); [destruct (sendto_raises e)|];
    reflexivity.
Qed.

End NodeFacts.

Section CallFacts.
Context `{prims : CryptoPrimitives}.

Lemma transmitted_send_message (e : env)
      (recipient message msg_type : string) (n : P2PNode) :
  transmitted (trace_of (send_message e recipient message msg_type n))
  = datagram_to n e recipient message msg_type.
Proof.
  rewrite send_message_run. unfold datagram_to.
  destruct (peers n !! recipient); [destruct (sendto_raises e)|];
    reflexivity.
Qed.

Lemma start_call_run (e : env) (recipient : string) (n : P2PNode) :
  start_call e recipient n =
  if in_call n then (Returned false, n, [])
  else
    match peers n !! recipient with
    | None => (Returned false, n, [LogError (PeerNotFound recipient)])
    | Some addr =>
        if sendto_raises e
        then (Returned false, n, [LogError (FailedToSend recipient)])
        else (Returned true, set_call_partner (Some recipient) n,
              [Sendto (packet_of n e recipient "call_request" "call") addr;
               LogInfo (SentMessage "call" recipient);
               LogInfo (CallRequestSent recipient)])
    end.
Proof.
  unfold start_call, bind, get.
  destruct (in_call n); [reflexivity|].
  rewrite send_message_run.
  destruct (peers n !! recipient); [destruct (sendto_raises e)|];
    reflexivity.
Qed.

Lemma accept_call_run (e : env) (caller : string) (n : P2PNode) :
  accept_call e caller n =
  if in_call n then (Returned false, n, [])
  else
    let n1 := set_call_partner (Some caller) (set_in_call true n) in
    (Returned true,
     (if audio (audio_manager n) then set_recording true n1 else n1),
     trace_of (send_message e caller "call_accepted" "call" n1)
     ++ (if audio (audio_manager n) then [RecordThread] else [])
     ++ [LogInfo (CallAcceptedWith caller)]).
Proof.
  unfold accept_call, bind, get.
  destruct (in_call n) eqn:Hin; [reflexivity|].
  unfold modify. cbn [fst snd].
  set (n1 := set_call_partner (Some caller) (set_in_call true n)).
  pose proof (send_message_node e caller "call_accepted" "call" n1) as Hn.
  destruct (send_message e caller "call_accepted" "call" n1)
    as [[r n2] t] eqn:Hs.
  unfold node_of in Hn. cbn in Hn. subst n2.
  assert (Hr : exists b, r = Returned b).
  { pose proof (send_message_run e caller "call_accepted" "call" n1) as Hrun.
    rewrite Hs in Hrun.
    destruct (peers n1 !! caller); [destruct (sendto_raises e)|];
      injection Hrun as -> _; eauto. }
  destruct Hr as [b ->].
  unfold start_recording, bind, get, modify, emit, ret, trace_of.
  cbn [fst snd audio_manager n1 set_call_partner set_in_call].
  destruct (audio (audio_manager n)); cbn; rewrite ?app_nil_r;
    reflexivity.
Qed.

End CallFacts.

(** * The claims *)

Section EndCallFacts.
Context `{prims : CryptoPrimitives}.

Lemma transmitted_app (t1 t2 : list event) :
  transmitted (t1 ++ t2) = transmitted t1 ++ transmitted t2.
Proof. unfold transmitted. apply List.filter_app. Qed.

Lemma end_call_run (e : env) (n : P2PNode) :
  end_call e n =
  if in_call n then
    (Returned tt,
     set_recording false (set_call_partner None (set_in_call false n)),
     (if truthy (call_partner n)
      then trace_of (send_message e (default "" (call_partner n))
                       "call_ended" "call" n)
      else [])
     ++ [LogInfo CallEnded])
  else (Returned tt, n, []).
Proof.
  unfold end_call, bind, get.
  destruct (in_call n) eqn:Hin; [|reflexivity].
  cbn [negb]. unfold when.
  destruct (truthy (call_partner n)).
  - unfold bind.
    set (p := default "" (call_partner n)).
    pose proof (send_message_node e p "call_ended" "call" n) as Hn.
    pose proof (send_message_run e p "call_ended" "call" n) as Hrun.
    destruct (send_message e p "call_ended" "call" n) as [[r n2] t] eqn:Hs.
    unfold node_of in Hn. cbn in Hn. subst n2.
    assert (Hr : exists b, r = Returned b).
    { destruct (peers n !! p); [destruct (sendto_raises e)|];
        injection Hrun as -> _; eauto. }
    destruct Hr as [b ->].
    unfold stop_recording, modify, emit, ret, trace_of. cbn.
    rewrite ?app_nil_r. reflexivity.
  - reflexivity.
Qed.

Lemma _send_audio_run (e : env) (audio_data : list byte) (n : P2PNode) :
  transmitted (trace_of (_send_audio e audio_data n)) =
  if in_call n && truthy (call_partner n)
  then datagram_to n e (default "" (call_partner n))
         (string_of_list_byte (Base64.b64encode audio_data)) "audio"
  else [].
Proof.
  unfold _send_audio, bind, get.
  destruct (in_call n && truthy (call_partner n)); [|reflexivity].
  rewrite <- transmitted_send_message.
  destruct (send_message e _ _ "audio" n) as [[[b|x] n2] t]; cbn;
    now rewrite ?app_nil_r.
Qed.

End EndCallFacts.

(** C6. [send_message] to a recipient that is not in the peer table answers
    [False] and transmits nothing; to a known recipient it answers [False],
    without raising and without a datagram, when the socket write fails, and
    otherwise answers [True] after exactly one datagram, whose packet holds
    the encrypted text and the time stamp. The node is unchanged throughout. *)
Theorem send_message_outcomes `{prims : CryptoPrimitives}
        (e : env) (recipient text msg_type : string) (n : P2PNode) :
  let run := send_message e recipient text msg_type n in
  node_of run = n
  /\ match peers n !! recipient with
     | None =>
         result_of run = Returned false /\ transmitted (trace_of run) = []
     | Some addr =>
         if sendto_raises e then
           result_of run = Returned false /\ transmitted (trace_of run) = []
         else
           result_of run = Returned true
           /\ transmitted (trace_of run)
              = [Sendto
                   (PyDict
                      [("type", PyStr msg_type);
                       ("sender", PyStr (username n));
                       ("recipient", PyStr recipient);
                       ("message",
                        PyStr (encrypt (crypto n) (fernet_entropy e) text));
                       ("timestamp", PyStr (datetime_now_isoformat e))])
                   addr]
     end.
Proof.
  cbv zeta. rewrite send_message_run.
  destruct (peers n !! recipient) as [addr|];
    [destruct (sendto_raises e)|]; repeat split.
Qed.

(** C9. A packet whose [type] is none of [text], [call], [audio], [link]
    (a missing type reads as [None]) leaves the node as it is and produces
    no callback, indeed no effect at all. *)
Theorem unknown_type_is_ignored `{prims : CryptoPrimitives}
        (items : list (string * pyval)) (addr : string * Z) (n : P2PNode) :
  known_type (dict_get items "type") = false ->
  _handle_packet (PyDict items) addr n = (Returned tt, n, []).
Proof.
  unfold known_type. intros H.
  apply orb_false_iff in H as [H Hlink].
  apply orb_false_iff in H as [H Haudio].
  apply orb_false_iff in H as [Htext Hcall].
  unfold _handle_packet, bind, get.
  rewrite Htext, Hcall, Haudio, Hlink. reflexivity.
Qed.

(** C10. The datagrams of [start_call], [accept_call] and [end_call] are
    those of [send_message] on the control token: the [message] field of
    such a packet is the token's ciphertext, and equals none of the literal
    control tokens. *)
Theorem call_tokens_are_encrypted `{prims : CryptoPrimitives}
        (e : env) (recipient caller : string) (n : P2PNode) :
  transmitted (trace_of (start_call e recipient n))
  = (if in_call n then []
     else datagram_to n e recipient "call_request" "call")
  /\ transmitted (trace_of (accept_call e caller n))
     = (if in_call n then []
        else datagram_to n e caller "call_accepted" "call")
  /\ transmitted (trace_of (end_call e n))
     = (if in_call n && truthy (call_partner n)
        then datagram_to n e (default "" (call_partner n)) "call_ended" "call"
        else [])
  /\ Forall
       (fun literal =>
          forall to token,
            message_field (packet_of n e to token "call")
            = PyStr (encrypt (crypto n) (fernet_entropy e) token)
            /\ py_eq_str (message_field (packet_of n e to token "call"))
                 literal = false)
       CONTROL_TOKENS.
Proof.
  repeat split.
  - rewrite start_call_run. unfold datagram_to.
    destruct (in_call n); [reflexivity|].
    destruct (peers n !! recipient); [destruct (sendto_raises e)|];
      reflexivity.
  - rewrite accept_call_run.
    destruct (in_call n); [reflexivity|].
    cbv zeta. unfold trace_of at 1. cbn [snd].
    rewrite !transmitted_app, transmitted_send_message.
    unfold datagram_to. cbn [peers set_call_partner set_in_call].
    destruct (audio (audio_manager n)); cbn; now rewrite app_nil_r.
  - rewrite end_call_run.
    destruct (in_call n); [|reflexivity].
    unfold trace_of at 1. cbn [snd andb].
    rewrite transmitted_app. cbn. rewrite app_nil_r.
    destruct (truthy (call_partner n)); [|reflexivity].
    apply transmitted_send_message.
  - unfold CONTROL_TOKENS.
    repeat constructor; cbn [message_field packet_of dict_get String.eqb
                               Ascii.eqb Bool.eqb py_eq_str];
      apply encrypt_not_short; cbn; lia.
Qed.

(** C1. When [start_call] succeeds it sends one [call] packet whose
    [message] field is the ciphertext of [call_request]. A receiving node
    compares that field with the literal token, so it does not recognise the
    request: it calls no callback and stays as it was. *)
Theorem call_request_is_not_recognised `{prims : CryptoPrimitives}
        (A B : P2PNode) (e : env) (recipient : string) (from : string * Z) :
  result_of (start_call e recipient A) = Returned true ->
  let packet := packet_of A e recipient "call_request" "call" in
  (exists addr,
     transmitted (trace_of (start_call e recipient A)) = [Sendto packet addr])
  /\ py_eq_str (message_field packet) "call_request" = false
  /\ _handle_packet packet from B = (Returned tt, B, []).
Proof.
  intros Hok packet.
  assert (Hne : forall t, length (Utf8.encode t) < 16 ->
                  String.eqb (encrypt (crypto A) (fernet_entropy e)
                                "call_request") t = false)
    by (intros t; apply encrypt_not_short).
  split; [|split].
  - rewrite start_call_run in *.
    destruct (in_call A); [discriminate|].
    destruct (peers A !! recipient) as [addr|]; [|discriminate].
    destruct (sendto_raises e); [discriminate|].
    now exists addr.
  - unfold packet, packet_of, message_field.
    cbn [dict_get String.eqb Ascii.eqb Bool.eqb py_eq_str].
    apply Hne. cbn. lia.
  - unfold _handle_packet, packet, packet_of, bind, get.
    cbn [dict_get String.eqb Ascii.eqb Bool.eqb py_eq_str].
    rewrite !Hne by (cbn; lia). reflexivity.
Qed.

(** C3. An inbound [call_ended] clears the call state whoever sent it and
    whatever the state was; an inbound [call_accepted] sets the in-call flag
    whoever sent it, also on an idle node; an inbound [call_rejected] changes
    nothing, also from the current remote party. *)
Theorem call_packets_ignore_sender `{prims : CryptoPrimitives}
        (n : P2PNode) (sender : pyval) (recipient timestamp : string)
        (from : string * Z) :
  call_state
    (node_of (_handle_packet
                (inbound_call sender recipient "call_ended" timestamp) from n))
  = (false, None)
  /\ in_call
       (node_of (_handle_packet
                   (inbound_call sender recipient "call_accepted" timestamp)
                   from n))
     = true
  /\ _handle_packet (inbound_call sender recipient "call_rejected" timestamp)
       from n
     = (Returned tt, n, []).
Proof.
  split; [|split].
  - unfold _handle_packet, inbound_call, bind, get, modify, stop_recording,
      when. cbn. destruct (call_callback n); reflexivity.
  - unfold _handle_packet, inbound_call, bind, get, modify, start_recording,
      when. cbn.
    destruct (audio (audio_manager n)), (call_callback n); reflexivity.
  - reflexivity.
Qed.

(** C5, as the code has it. The guard of [start_call] and [accept_call] is
    the in-call flag: when it is set both answer [False] and change nothing;
    when it is not set [end_call] does nothing. *)
Theorem call_guards_test_in_call `{prims : CryptoPrimitives}
        (e : env) (recipient caller : string) (n : P2PNode) :
  if in_call n then
    start_call e recipient n = (Returned false, n, [])
    /\ accept_call e caller n = (Returned false, n, [])
  else end_call e n = (Returned tt, n, []).
Proof.
  rewrite start_call_run, accept_call_run, end_call_run.
  destruct (in_call n); auto.
Qed.

Section ListenFacts.
Context `{prims : CryptoPrimitives}.
Variable json_loads : string -> option pyval.

Ltac branch :=
  match goal with
  | |- context [if ?b then _ else _] => destruct b eqn:?
  | |- context [match decrypt_try ?c ?m with _ => _ end] =>
      destruct (decrypt_try c m) eqn:?
  | |- context [match Base64.b64decode ?s with _ => _ end] =>
      destruct (Base64.b64decode s) eqn:?
  | |- context [match ?m with PyStr _ => _ | _ => _ end] =>
      destruct m eqn:?
  end.

(** Handling a dictionary never raises and never touches [running]. *)
Lemma _handle_packet_dict (items : list (string * pyval))
      (addr : string * Z) (n : P2PNode) :
  exists n' trace,
    _handle_packet (PyDict items) addr n = (Returned tt, n', trace)
    /\ running n' = running n.
Proof.
  unfold _handle_packet, node_decrypt, start_recording, stop_recording,
    play_audio, when.
  unfold bind, get, modify, emit, ret, try_except, raise.
  repeat (branch; cbn [fst snd]); eauto.
Qed.

(** Anything that is no dictionary raises at the first [get]. *)
Lemma _handle_packet_not_dict (packet : pyval) (addr : string * Z)
      (n : P2PNode) :
  (forall items, packet <> PyDict items) ->
  _handle_packet packet addr n = (Raised AttributeError, n, []).
Proof.
  intros Hnot. destruct packet; try reflexivity.
  now destruct (Hnot items).
Qed.

Lemma listen_iteration_run (r : recv) (n : P2PNode) :
  listen_iteration json_loads r n =
  match parsed_dict json_loads r with
  | Some (items, addr) => _handle_packet (PyDict items) addr n
  | None => (Returned tt, n, [LogError ErrorReceivingData])
  end.
Proof.
  unfold listen_iteration, parsed_dict, try_except.
  destruct r as [|data addr]; [reflexivity|].
  destruct (Utf8.decode data) as [text|]; [|reflexivity].
  destruct (json_loads text) as [packet|]; [|reflexivity].
  destruct packet; try reflexivity.
  destruct (_handle_packet_dict items addr n) as (n' & tr & -> & _).
  reflexivity.
Qed.

Lemma listen_iteration_returns (r : recv) (n : P2PNode) :
  exists n' trace,
    listen_iteration json_loads r n = (Returned tt, n', trace)
    /\ running n' = running n.
Proof.
  rewrite listen_iteration_run.
  destruct (parsed_dict json_loads r) as [[items addr]|].
  - apply _handle_packet_dict.
  - eauto.
Qed.

Lemma _listen_returns (receptions : list recv) (n : P2PNode) :
  exists n' trace,
    _listen json_loads receptions n
    = (Returned (if running n then [] else receptions), n', trace)
    /\ running n' = running n.
Proof.
  revert n. induction receptions as [|r rest IH]; intros n.
  - exists n, []. cbn. destruct (running n); auto.
  - cbn [_listen]. unfold bind at 1, get.
    destruct (running n) eqn:Hrun.
    + unfold bind.
      destruct (listen_iteration_returns r n) as (n1 & t1 & -> & Hn1).
      destruct (IH n1) as (n2 & t2 & -> & Hn2).
      rewrite Hn1, Hrun. exists n2, ([] ++ t1 ++ t2).
      split; [reflexivity | congruence].
    + exists n, []. split; [reflexivity | assumption].
Qed.

Lemma _listen_run (receptions : list recv) (n : P2PNode) :
  result_of (_listen json_loads receptions n)
  = Returned (if running n then [] else receptions)
  /\ running (node_of (_listen json_loads receptions n)) = running n.
Proof.
  destruct (_listen_returns receptions n) as (n' & tr & -> & Hrun).
  split; [reflexivity | exact Hrun].
Qed.

End ListenFacts.

(** C8, as the code has it. A reception whose payload is not UTF-8, not
    JSON, or no JSON object is logged and dropped: the node stays as it was
    and the only effect is the log line. A JSON object, whatever fields it
    has, is handed to [_handle_packet]. No reception makes the iteration
    raise or turns [running] off, so the loop reads on: started on a running
    node it consumes every reception. *)
Theorem receive_loop_is_robust `{prims : CryptoPrimitives}
        (json_loads : string -> option pyval)
        (r : recv) (receptions : list recv) (n : P2PNode) :
  listen_iteration json_loads r n
  = match parsed_dict json_loads r with
    | Some (items, addr) => _handle_packet (PyDict items) addr n
    | None => (Returned tt, n, [LogError ErrorReceivingData])
    end
  /\ result_of (listen_iteration json_loads r n) = Returned tt
  /\ running (node_of (listen_iteration json_loads r n)) = running n
  /\ result_of (_listen json_loads receptions n)
     = Returned (if running n then [] else receptions)
  /\ running (node_of (_listen json_loads receptions n)) = running n.
Proof.
  split; [apply listen_iteration_run|].
  destruct (listen_iteration_returns json_loads r n) as (n' & tr & -> & Hrun).
  split; [reflexivity|]. split; [exact Hrun|].
  apply _listen_run.
Qed.

(** C2. An audio chunk sent during a call goes through [send_message] like
    a text: the [message] field of the [audio] packet is the ciphertext of
    the base64 text of the chunk, and differs from that base64 text. *)
Theorem audio_goes_through_the_cipher `{laws : CryptoLaws}
        (e : env) (audio_data : list byte) (n : P2PNode) :
  let audio_b64 := string_of_list_byte (Base64.b64encode audio_data) in
  transmitted (trace_of (_send_audio e audio_data n))
  = (if in_call n && truthy (call_partner n)
     then datagram_to n e (default "" (call_partner n)) audio_b64 "audio"
     else [])
  /\ forall to,
       message_field (packet_of n e to audio_b64 "audio")
       = PyStr (encrypt (crypto n) (fernet_entropy e) audio_b64)
       /\ message_field (packet_of n e to audio_b64 "audio")
          <> PyStr audio_b64.
Proof.
  intros audio_b64. split; [apply _send_audio_run|].
  intros to. split; [reflexivity|].
  unfold packet_of, message_field.
  cbn [dict_get String.eqb Ascii.eqb Bool.eqb].
  intros Heq. injection Heq as Heq.
  pose proof (encrypt_longer (crypto n) (fernet_entropy e) audio_b64) as Hlt.
  rewrite Heq in Hlt. lia.
Qed.

(** C4. For every passphrase the crypto manager is built, and for every
    text it decrypts what it encrypted to that same text. (A text is a
    string that is well-formed UTF-8; the 16 bytes are those that
    [os.urandom(16)] hands to the cipher.) *)
Theorem encrypt_decrypt_round_trip `{laws : CryptoLaws}
        (passphrase : string) (urandom16 : list byte)
        (e : entropy) (P : string) :
  Utf8.is_text P ->
  length (os_urandom16 e) = 16 ->
  exists cm,
    CryptoManager_init passphrase urandom16 = Some cm
    /\ decrypt cm (PyStr (encrypt cm e P)) = P.
Proof.
  intros HP Hiv.
  destruct (CryptoManager_init_total passphrase urandom16) as (cm & Hcm & Hk).
  exists cm. split; [exact Hcm|].
  unfold decrypt. now rewrite decrypt_try_encrypt.
Qed.

(** C7, as the code has it. Whatever a ciphertext of [P] is changed into,
    [decrypt] does not raise; it answers [P] itself, or the failure
    sentinel, unless the changed text decodes to a token that carries a
    valid MAC for other signed bytes than those of the ciphertext. *)
Theorem tampering_is_detected_up_to_the_mac `{laws : CryptoLaws}
        (passphrase : string) (urandom16 : list byte) (cm : CryptoManager)
        (e : entropy) (P c' : string) :
  CryptoManager_init passphrase urandom16 = Some cm ->
  Utf8.is_text P ->
  length (os_urandom16 e) = 16 ->
  decrypt cm (PyStr c') = P
  \/ decrypt cm (PyStr c') = DECRYPTION_FAILED
  \/ carries_other_valid_mac cm (basic_parts_of cm e P) c'.
Proof.
  intros Hinit HP Hiv.
  destruct (CryptoManager_init_total passphrase urandom16) as (cm' & Hcm & Hk).
  rewrite Hinit in Hcm. injection Hcm as <-.
  unfold decrypt, decrypt_try, carries_other_valid_mac, raw_token.
  destruct (Base64.urlsafe_b64decode (Utf8.encode c')) as [token|]; [|auto].
  unfold Fernet_decrypt.
  destruct (Base64.urlsafe_b64decode token) as [data|]; [|auto].
  set (signed := basic_parts_of cm e P).
  destruct (decide (signed_part data = signed)) as [Hsame|Hother].
  - (* the MAC covers the same bytes: the token is the original one *)
    destruct (decide (HMAC_SHA256 (_signing_key (cipher cm)) signed
                      = tag_part data)) as [Htag|Htag].
    + left.
      assert (Hdata : data = signed
                             ++ HMAC_SHA256 (_signing_key (cipher cm)) signed).
      { rewrite Htag, <- Hsame. unfold signed_part, tag_part.
        symmetry. apply firstn_skipn. }
      rewrite Hdata. unfold signed, basic_parts_of.
      rewrite Fernet_decrypt_data_parts by assumption.
      now rewrite decode_encode_text.
    + right; left.
      unfold Fernet_decrypt_data.
      destruct data as [|version rest]; [reflexivity|].
      destruct (bool_decide (version = x80)); [|reflexivity].
      cbn [negb].
      destruct (Nat.ltb (length (version :: rest)) 9); [reflexivity|].
      rewrite Hsame. rewrite bool_decide_eq_false_2 by exact Htag.
      reflexivity.
  - (* other signed bytes: a valid MAC on them is the third case *)
    destruct (decide (HMAC_SHA256 (_signing_key (cipher cm))
                        (signed_part data) = tag_part data)) as [Htag|Htag].
    + right; right. exists data. auto.
    + right; left.
      unfold Fernet_decrypt_data.
      destruct data as [|version rest]; [reflexivity|].
      destruct (bool_decide (version = x80)); [|reflexivity].
      cbn [negb].
      destruct (Nat.ltb (length (version :: rest)) 9); [reflexivity|].
      rewrite bool_decide_eq_false_2 by exact Htag.
      reflexivity.
Qed.

(** * The claims at concrete nodes *)

Lemma encrypt_decrypt_round_trip_witness :
  (Utf8.is_text "hi" /\ length (repeat x07 16) = 16)
  /\ exists cm,
       @CryptoManager_init Toy.primitives "hunter2" (repeat x01 16) = Some cm
       /\ @decrypt Toy.primitives cm
            (PyStr (@encrypt Toy.primitives cm
                      (fernet_entropy Scenario.world) "hi")) = "hi".
Proof.
  split; [split; reflexivity|].
  apply (@encrypt_decrypt_round_trip Toy.primitives ToyFacts.laws
           "hunter2" (repeat x01 16) (fernet_entropy Scenario.world) "hi");
    reflexivity.
Defined.

(** C7 is false as stated: one changed byte, and [decrypt] answers the
    plaintext, not the failure sentinel. *)
Lemma tampered_ciphertext_still_decrypts :
  @encrypt Toy.primitives (crypto Scenario.alice)
    (fernet_entropy Scenario.world) "hi" = Scenario.hi_ciphertext
  /\ single_byte_change Scenario.hi_ciphertext Scenario.hi_tampered = true
  /\ Scenario.hi_tampered
     = string_of_list_byte
         (Base64.bump_before_pads (Utf8.encode Scenario.hi_ciphertext))
  /\ @decrypt Toy.primitives (crypto Scenario.alice)
       (PyStr Scenario.hi_tampered) = "hi"
  /\ "hi" <> DECRYPTION_FAILED.
Proof.
  split; [vm_compute; reflexivity|].
  split; [vm_compute; reflexivity|].
  split; [vm_compute; reflexivity|].
  split; [vm_compute; reflexivity|].
  discriminate.
Qed.

Lemma tampering_is_detected_up_to_the_mac_witness :
  (@CryptoManager_init Toy.primitives "hunter2" (repeat x01 16)
   = Some (crypto Scenario.alice)
   /\ Utf8.is_text "hi"
   /\ length (os_urandom16 (fernet_entropy Scenario.world)) = 16)
  /\ (@decrypt Toy.primitives (crypto Scenario.alice)
        (PyStr Scenario.hi_tampered) = "hi"
      \/ @decrypt Toy.primitives (crypto Scenario.alice)
           (PyStr Scenario.hi_tampered) = DECRYPTION_FAILED
      \/ @carries_other_valid_mac Toy.primitives (crypto Scenario.alice)
           (@basic_parts_of Toy.primitives (crypto Scenario.alice)
              (fernet_entropy Scenario.world) "hi")
           Scenario.hi_tampered).
Proof.
  split; [repeat split; vm_compute; reflexivity|].
  apply (@tampering_is_detected_up_to_the_mac Toy.primitives ToyFacts.laws
           "hunter2" (repeat x01 16));
    vm_compute; reflexivity.
Defined.

Lemma call_request_is_not_recognised_witness :
  result_of (@start_call Toy.primitives Scenario.world "bob" Scenario.alice)
  = Returned true
  /\ (let packet :=
        @packet_of Toy.primitives Scenario.alice Scenario.world "bob"
          "call_request" "call" in
      (exists addr,
         transmitted
           (trace_of (@start_call Toy.primitives Scenario.world "bob"
                        Scenario.alice))
         = [Sendto packet addr])
      /\ py_eq_str (@message_field packet) "call_request" = false
      /\ @_handle_packet Toy.primitives packet Scenario.from_anywhere
           Scenario.bob
         = (Returned tt, Scenario.bob, [])).
Proof.
  split; [vm_compute; reflexivity|].
  apply (@call_request_is_not_recognised Toy.primitives).
  vm_compute; reflexivity.
Defined.

Lemma unknown_type_is_ignored_witness :
  known_type (dict_get [("type", PyStr "ping"); ("sender", PyStr "bob")]
                "type") = false
  /\ @_handle_packet Toy.primitives
       (PyDict [("type", PyStr "ping"); ("sender", PyStr "bob")])
       Scenario.from_anywhere Scenario.alice
     = (Returned tt, Scenario.alice, []).
Proof.
  split; [reflexivity|].
  apply (@unknown_type_is_ignored Toy.primitives). reflexivity.
Defined.

Lemma audio_goes_through_the_cipher_witness :
  let audio_b64 := string_of_list_byte (Base64.b64encode [x01; x02; x03]) in
  transmitted
    (trace_of (@_send_audio Toy.primitives Scenario.world [x01; x02; x03]
                 Scenario.alice_active))
  = [Sendto (@packet_of Toy.primitives Scenario.alice_active Scenario.world
               "bob" audio_b64 "audio") ("localhost", 5001%Z)]
  /\ @message_field
       (@packet_of Toy.primitives Scenario.alice_active Scenario.world
          "bob" audio_b64 "audio")
     <> PyStr audio_b64.
Proof.
  intros audio_b64.
  destruct (@audio_goes_through_the_cipher Toy.primitives ToyFacts.laws
              Scenario.world [x01; x02; x03] Scenario.alice_active)
    as [Hsent Hfield].
  split.
  - rewrite Hsent. vm_compute. reflexivity.
  - apply (Hfield "bob").
Defined.

(** The call branch at a node in a call with Bob: a [call_ended] from
    someone else ends the call; and at an idle node: a [call_accepted] from
    anyone sets the in-call flag. *)
Lemma call_ended_from_a_stranger :
  call_state Scenario.alice_active = (true, Some "bob")
  /\ call_state
       (node_of (@_handle_packet Toy.primitives
                   (inbound_call (PyStr "mallory") "alice" "call_ended"
                      "2024-01-01T12:00:00")
                   Scenario.from_anywhere Scenario.alice_active))
     = (false, None)
  /\ call_state Scenario.alice = (false, None)
  /\ call_state
       (node_of (@_handle_packet Toy.primitives
                   (inbound_call (PyStr "mallory") "alice" "call_accepted"
                      "2024-01-01T12:00:00")
                   Scenario.from_anywhere Scenario.alice))
     = (true, None).
Proof. repeat split. Qed.

(** C5 is false as stated: with a request to Bob pending, [start_call] to
    Carol succeeds and replaces the remote party, and [accept_call] of Carol
    succeeds although Bob is the associated party. *)
Lemma pending_call_does_not_guard :
  node_of (@start_call Toy.primitives Scenario.world "bob" Scenario.alice)
  = Scenario.alice_ringing
  /\ call_state Scenario.alice_ringing = (false, Some "bob")
  /\ result_of (@start_call Toy.primitives Scenario.world "carol"
                  Scenario.alice_ringing) = Returned true
  /\ call_state (node_of (@start_call Toy.primitives Scenario.world "carol"
                            Scenario.alice_ringing))
     = (false, Some "carol")
  /\ result_of (@accept_call Toy.primitives Scenario.world "carol"
                  Scenario.alice_ringing) = Returned true
  /\ call_state (node_of (@accept_call Toy.primitives Scenario.world "carol"
                            Scenario.alice_ringing))
     = (true, Some "carol").
Proof. repeat split; vm_compute; reflexivity. Qed.

(** C8 is false as stated: a JSON object without sender, recipient and
    time stamp is neither logged nor dropped; it is dispatched, here it
    sets the in-call flag and reaches the call callback. *)
Lemma packet_with_missing_fields_is_dispatched :
  Utf8.decode (Utf8.encode Scenario.accepted_text) = Some Scenario.accepted_text
  /\ Scenario.loads_accepted Scenario.accepted_text
     = Some (PyDict Scenario.accepted_items)
  /\ lacks_required_field Scenario.accepted_items = true
  /\ @listen_iteration Toy.primitives Scenario.loads_accepted
       (RecvData (Utf8.encode Scenario.accepted_text) Scenario.from_anywhere)
       Scenario.alice
     = (Returned tt,
        set_recording true (set_in_call true Scenario.alice),
        [RecordThread; CallCallback "accepted" PyNone]).
Proof. repeat split. Qed.

(** * Further properties of the node *)

(** ** The peer table *)

Section PeerFacts.
Context `{prims : CryptoPrimitives}.

Lemma add_peer_run (u ip : string) (p : Z) (n : P2PNode) :
  add_peer u ip p n =
  (Returned tt,
   set_active_connections (<[u := true]> (active_connections n))
     (set_peers (<[u := (ip, p)]> (peers n)) n),
   LogInfo (AddedPeer u) :: (if peer_callback n then [PeerCallback] else [])).
Proof.
  unfold add_peer, bind, get, modify, emit, when, ret. cbn.
  destruct (peer_callback n); reflexivity.
Qed.

Lemma remove_peer_run (u : string) (n : P2PNode) :
  remove_peer u n =
  match peers n !! u with
  | Some _ =>
      (Returned tt,
       set_active_connections (delete u (active_connections n))
         (set_peers (delete u (peers n)) n),
       LogInfo (RemovedPeer u)
         :: (if peer_callback n then [PeerCallback] else []))
  | None => (Returned tt, n, [])
  end.
Proof.
  unfold remove_peer, bind, get, modify, emit, when, ret.
  destruct (peers n !! u); [|reflexivity]. cbn.
  destruct (peer_callback n); reflexivity.
Qed.

(** Two nodes are equal when their fields are. *)
Lemma node_eq (n m : P2PNode) :
  username n = username m -> crypto n = crypto m ->
  audio_manager n = audio_manager m -> port n = port m ->
  peers n = peers m -> active_connections n = active_connections m ->
  in_call n = in_call m -> call_partner n = call_partner m ->
  message_callback n = message_callback m ->
  call_callback n = call_callback m -> peer_callback n = peer_callback m ->
  running n = running m ->
  n = m.
Proof. destruct n, m. cbn. intros. congruence. Qed.

End PeerFacts.

(** X1. [add_peer] stores the address and marks the peer reachable, whether
    or not the name was known; the entries of all other names stay as they
    were; adding a name again keeps one entry, with the last address. *)
Theorem add_peer_upserts `{prims : CryptoPrimitives}
        (u ip ip' : string) (p p' : Z) (n : P2PNode) :
  let n1 := node_of (add_peer u ip p n) in
  peers n1 !! u = Some (ip, p)
  /\ active_connections n1 !! u = Some true
  /\ delete u (peers n1) = delete u (peers n)
  /\ delete u (active_connections n1) = delete u (active_connections n)
  /\ call_state n1 = call_state n
  /\ node_of (add_peer u ip' p' n1) = node_of (add_peer u ip' p' n).
Proof.
  cbv zeta. rewrite !add_peer_run. unfold node_of. cbn.
  rewrite !lookup_insert_eq, !delete_insert_eq.
  repeat split.
  apply node_eq; cbn; try reflexivity; apply insert_insert_eq.
Qed.

(** X2. [remove_peer] of a name that is not in the table does nothing at
    all, not even a log line or a callback; and removing a name that was
    added to a node that did not know it gives that node back. *)
Theorem remove_peer_undoes_add_peer `{prims : CryptoPrimitives}
        (u ip : string) (p : Z) (n : P2PNode) :
  peers n !! u = None ->
  active_connections n !! u = None ->
  remove_peer u n = (Returned tt, n, [])
  /\ node_of (remove_peer u (node_of (add_peer u ip p n))) = n.
Proof.
  intros Hp Ha. rewrite !remove_peer_run, add_peer_run, Hp.
  split; [reflexivity|].
  unfold node_of. cbn. rewrite lookup_insert_eq. cbn.
  apply node_eq; cbn; try reflexivity.
  - now apply delete_insert_id.
  - now apply delete_insert_id.
Qed.

(** ** What the actions keep *)

Section LifetimeFacts.
Context `{prims : CryptoPrimitives}.
Variable json_loads : string -> option pyval.

Ltac branch :=
  match goal with
  | |- context [if ?b then _ else _] => destruct b eqn:?
  | |- context [match decrypt_try ?c ?m with _ => _ end] =>
      destruct (decrypt_try c m) eqn:?
  | |- context [match Base64.b64decode ?s with _ => _ end] =>
      destruct (Base64.b64decode s) eqn:?
  | |- context [match ?m with PyStr _ => _ | _ => _ end] =>
      destruct m eqn:?
  end.

Lemma small_step_refl (n : P2PNode) : small_step n n.
Proof. unfold small_step. repeat split; auto. Qed.

Ltac shape :=
  unfold small_step; cbn;
  repeat split; auto;
  try (left; split; reflexivity).

(** Handling a dictionary transmits nothing; it leaves the node, or sets
    the in-call flag, or clears the call state. *)
Lemma _handle_packet_shape (items : list (string * pyval))
      (addr : string * Z) (n : P2PNode) :
  exists n' trace,
    _handle_packet (PyDict items) addr n = (Returned tt, n', trace)
    /\ transmitted trace = []
    /\ small_step n n'
    /\ peers n' = peers n
    /\ active_connections n' = active_connections n
    /\ running n' = running n.
Proof.
  unfold _handle_packet, node_decrypt, start_recording, stop_recording,
    play_audio, when.
  unfold bind, get, modify, emit, ret, try_except, raise.
  repeat (branch; cbn [fst snd]);
    eexists; eexists; (split; [reflexivity|]); cbn;
    (split; [reflexivity|]); (split; [shape|]); auto.
Qed.

Lemma listen_iteration_shape (r : recv) (n : P2PNode) :
  exists n' trace,
    listen_iteration json_loads r n = (Returned tt, n', trace)
    /\ transmitted trace = []
    /\ small_step n n'
    /\ peers n' = peers n
    /\ active_connections n' = active_connections n
    /\ running n' = running n.
Proof.
  rewrite listen_iteration_run.
  destruct (parsed_dict json_loads r) as [[items addr]|].
  - apply _handle_packet_shape.
  - exists n, [LogError ErrorReceivingData].
    repeat split; auto using small_step_refl.
Qed.

Lemma shutdown_run (e : env) (n : P2PNode) :
  shutdown e n =
  (Returned tt,
   node_of (end_call e (set_running false n)),
   trace_of (end_call e (set_running false n))
   ++ [SocketClose; LogInfo NodeShutdown]).
Proof.
  unfold shutdown, bind, modify, emit. cbn [fst snd].
  rewrite end_call_run. cbn [in_call set_running].
  destruct (in_call n); cbn; rewrite ?app_nil_r; reflexivity.
Qed.

Lemma _send_audio_node (e : env) (audio_data : list byte) (n : P2PNode) :
  node_of (_send_audio e audio_data n) = n.
Proof.
  unfold _send_audio, bind, get.
  destruct (in_call n && truthy (call_partner n)); [|reflexivity].
  pose proof (send_message_node e (default "" (call_partner n))
                (string_of_list_byte (Base64.b64encode audio_data))
                "audio" n) as Hn.
  destruct (send_message e _ _ "audio" n) as [[[b|x] n2] t];
    unfold node_of in *; cbn in *; exact Hn.
Qed.


Lemma bind_ret_node {A : Type} (c : M A) (n : P2PNode) :
  node_of ((c ;; ret tt) n) = node_of (c n).
Proof.
  unfold bind, ret, node_of. destruct (c n) as [[[a|x] n1] t]; reflexivity.
Qed.

(** Every action is a small step. *)
Lemma after_small_step (a : action) (n : P2PNode) :
  small_step n (after json_loads a n).
Proof.
  unfold after. destruct a; cbn [perform]; rewrite ?bind_ret_node.
  - rewrite add_peer_run. unfold small_step, node_of. cbn.
    repeat split; auto. right; left. eauto.
  - rewrite remove_peer_run. destruct (peers n !! username0).
    + unfold small_step, node_of. cbn. repeat split; auto.
      right; right. eauto.
    + apply small_step_refl.
  - rewrite send_message_node. apply small_step_refl.
  - unfold share_link. rewrite send_message_node. apply small_step_refl.
  - rewrite start_call_run.
    destruct (in_call n); [apply small_step_refl|].
    destruct (peers n !! recipient);
      [destruct (sendto_raises e)|]; try apply small_step_refl.
    unfold node_of. shape.
  - rewrite accept_call_run.
    destruct (in_call n); [apply small_step_refl|].
    cbv zeta. unfold node_of. cbn [fst snd].
    destruct (audio (audio_manager n)) eqn:Ha; shape.
  - rewrite end_call_run.
    destruct (in_call n); [|apply small_step_refl].
    unfold node_of. shape.
  - rewrite _send_audio_node. apply small_step_refl.
  - destruct (listen_iteration_shape r n) as (n' & tr & -> & _ & Hs & _).
    exact Hs.
  - rewrite shutdown_run, end_call_run. cbn [in_call set_running].
    destruct (in_call n); unfold node_of; shape.
  - unfold modify, node_of. shape.
Qed.

Lemma after_all_app (l1 l2 : list action) (n : P2PNode) :
  after_all json_loads (l1 ++ l2) n
  = after_all json_loads l2 (after_all json_loads l1 n).
Proof. unfold after_all. apply fold_left_app. Qed.

(** A property that every small step keeps holds after any sequence of
    actions. *)
Lemma after_all_ind (P : P2PNode -> Prop) :
  (forall n n', small_step n n' -> P n -> P n') ->
  forall actions n, P n -> P (after_all json_loads actions n).
Proof.
  intros Hstep actions.
  induction actions as [|a rest IH]; intros n Hn; [exact Hn|].
  cbn. apply IH. apply (Hstep n); [apply after_small_step | exact Hn].
Qed.

End LifetimeFacts.

Section PeerListFacts.
Context `{prims : CryptoPrimitives}.
Variable json_loads : string -> option pyval.

Lemma peer_tables_agree_step (n n' : P2PNode) :
  small_step n n' -> peer_tables_agree n -> peer_tables_agree n'.
Proof.
  unfold small_step, peer_tables_agree.
  intros (_ & _ & _ & _ & Htab & _) Hn.
  destruct Htab as [[-> ->] | [(u & addr & -> & ->) | (u & -> & ->)]].
  - exact Hn.
  - rewrite Hn. now rewrite fmap_insert.
  - rewrite Hn. now rewrite fmap_delete.
Qed.

Lemma records_only_in_call_step (n n' : P2PNode) :
  small_step n n' -> records_only_in_call n -> records_only_in_call n'.
Proof.
  unfold small_step, records_only_in_call.
  intros (_ & _ & _ & _ & _ & Hrec & _) Hn Hr.
  destruct Hrec as [[Hsame ->] | [Hin | Hoff]].
  - apply Hn. now rewrite <- Hsame.
  - exact Hin.
  - congruence.
Qed.

Lemma P2PNode_init_fresh (username password : string)
      (urandom16 : list byte) (pyaudio : bool) (bound_port : Z)
      (n0 : P2PNode) :
  P2PNode_init username password urandom16 pyaudio bound_port = Some n0 ->
  peers n0 = ∅ /\ active_connections n0 = ∅
  /\ in_call n0 = false /\ call_partner n0 = None
  /\ recording (audio_manager n0) = false /\ running n0 = true.
Proof.
  unfold P2PNode_init.
  destruct (CryptoManager_init password urandom16); [|discriminate].
  intros [= <-]. repeat split.
Qed.

Lemma update_peer_list_online (n : P2PNode) :
  peer_tables_agree n ->
  Forall (fun line => exists u ip p, line = peer_line u ip p true)
         (update_peer_list n).
Proof.
  unfold peer_tables_agree, update_peer_list. intros Hagree.
  apply Forall_fmap, Forall_forall. intros [u [ip p]] Hin. cbn.
  apply elem_of_map_to_list in Hin.
  rewrite Hagree, lookup_fmap, Hin. cbn. eauto.
Qed.

End PeerListFacts.

(** X3. At every moment of a node's life, whatever the application, the
    audio thread and the network did to it since its construction, the
    table of reachability flags holds [True] for exactly the peers of the
    peer table; so every line of the peer list of the window reads
    [Online]. *)
Theorem every_listed_peer_is_online `{prims : CryptoPrimitives}
        (json_loads : string -> option pyval)
        (username password : string) (urandom16 : list byte)
        (pyaudio : bool) (bound_port : Z)
        (n0 : P2PNode) (actions : list action) :
  P2PNode_init username password urandom16 pyaudio bound_port = Some n0 ->
  let n := after_all json_loads actions n0 in
  peer_tables_agree n
  /\ Forall (fun line => exists u ip p, line = peer_line u ip p true)
            (update_peer_list n).
Proof.
  intros Hinit n.
  assert (Hagree : peer_tables_agree n).
  { apply after_all_ind; [apply peer_tables_agree_step|].
    destruct (P2PNode_init_fresh _ _ _ _ _ _ Hinit) as (Hp & Ha & _).
    unfold peer_tables_agree. rewrite Hp, Ha. now rewrite fmap_empty. }
  split; [exact Hagree | now apply update_peer_list_online].
Qed.

(** X4. At every moment of a node's life the capture flag of the audio
    manager is set only while the in-call flag is: the microphone is not
    recorded outside a call. *)
Theorem microphone_only_in_call `{prims : CryptoPrimitives}
        (json_loads : string -> option pyval)
        (username password : string) (urandom16 : list byte)
        (pyaudio : bool) (bound_port : Z)
        (n0 : P2PNode) (actions : list action) :
  P2PNode_init username password urandom16 pyaudio bound_port = Some n0 ->
  records_only_in_call (after_all json_loads actions n0).
Proof.
  intros Hinit.
  apply after_all_ind; [apply records_only_in_call_step|].
  destruct (P2PNode_init_fresh _ _ _ _ _ _ Hinit) as (_ & _ & _ & _ & Hr & _).
  unfold records_only_in_call. congruence.
Qed.

(** X5. No action changes the name, the keys or the port of a node or
    brings a PyAudio device into being, and none sets [running]: a node
    that was shut down stays shut down. *)
Theorem identity_is_kept_and_shutdown_is_final `{prims : CryptoPrimitives}
        (json_loads : string -> option pyval)
        (actions : list action) (n : P2PNode) :
  let n' := after_all json_loads actions n in
  username n' = username n
  /\ crypto n' = crypto n
  /\ port n' = port n
  /\ audio (audio_manager n') = audio (audio_manager n)
  /\ implb (running n') (running n) = true.
Proof.
  cbv zeta.
  apply (after_all_ind json_loads
           (fun n' => username n' = username n /\ crypto n' = crypto n
                      /\ port n' = port n
                      /\ audio (audio_manager n') = audio (audio_manager n)
                      /\ implb (running n') (running n) = true)).
  - intros m m' (Hu & Hc & Hp & Ha & _ & _ & Hrun) (Iu & Ic & Ip & Ia & Ir).
    repeat split; try congruence.
    destruct Hrun as [-> | ->]; [exact Ir | reflexivity].
  - repeat split. now destruct (running n).
Qed.

(** ** How the methods compose *)

(** X6. The peer table decides where a message goes: after [add_peer] a
    message to that name is sent, when the socket takes it, to the address
    just added; after [remove_peer] of the name it is refused and nothing
    is sent. *)
Theorem peer_table_decides_delivery `{prims : CryptoPrimitives}
        (e : env) (u ip message msg_type : string) (p : Z) (n : P2PNode) :
  sendto_raises e = false ->
  let n1 := node_of (add_peer u ip p n) in
  let n2 := node_of (remove_peer u n1) in
  send_message e u message msg_type n1
  = (Returned true, n1,
     [Sendto (packet_of n e u message msg_type) (ip, p);
      LogInfo (SentMessage msg_type u)])
  /\ send_message e u message msg_type n2
     = (Returned false, n2, [LogError (PeerNotFound u)]).
Proof.
  intros Hok n1 n2. rewrite !send_message_run.
  assert (H1 : peers n1 !! u = Some (ip, p)).
  { unfold n1. rewrite add_peer_run. unfold node_of. cbn.
    apply lookup_insert_eq. }
  assert (H2 : peers n2 !! u = None).
  { unfold n2. rewrite remove_peer_run, H1. unfold node_of. cbn.
    apply lookup_delete_eq. }
  rewrite H1, H2, Hok. split; [|reflexivity].
  unfold n1. rewrite add_peer_run. reflexivity.
Qed.

(** X7. [end_call] does not cancel a call request: after a [start_call]
    that succeeded on a node that was not in a call, the remote party is
    set, and [end_call] sends nothing and leaves it set. *)
Theorem end_call_keeps_a_pending_request `{prims : CryptoPrimitives}
        (e e' : env) (recipient : string) (n : P2PNode) :
  in_call n = false ->
  result_of (start_call e recipient n) = Returned true ->
  let n1 := node_of (start_call e recipient n) in
  call_state n1 = (false, Some recipient)
  /\ end_call e' n1 = (Returned tt, n1, []).
Proof.
  intros Hidle Hok n1. unfold n1. rewrite end_call_run.
  rewrite start_call_run in *. rewrite Hidle in *.
  destruct (peers n !! recipient); [|discriminate].
  destruct (sendto_raises e); [discriminate|].
  unfold node_of, call_state. cbn. rewrite Hidle. split; reflexivity.
Qed.

(** X8. [accept_call] followed by [end_call] leaves no call behind: the
    in-call flag, the remote party and the capture flag are cleared, the
    peer table is as before, and [end_call] sends the [call_ended] packet
    to the caller (if the caller is a peer with a name, and the socket
    takes it). *)
Theorem accept_then_end_call_is_idle `{prims : CryptoPrimitives}
        (e e' : env) (caller : string) (n : P2PNode) :
  in_call n = false ->
  let n1 := node_of (accept_call e caller n) in
  let n2 := node_of (end_call e' n1) in
  call_state n1 = (true, Some caller)
  /\ call_state n2 = (false, None)
  /\ recording (audio_manager n2) = false
  /\ peers n2 = peers n
  /\ transmitted (trace_of (end_call e' n1))
     = (if String.eqb caller "" then []
        else datagram_to n e' caller "call_ended" "call").
Proof.
  intros Hidle n1 n2.
  set (m := set_call_partner (Some caller) (set_in_call true n)).
  assert (Hn1 : n1 = if audio (audio_manager n)
                     then set_recording true m else m).
  { unfold n1. rewrite accept_call_run, Hidle. reflexivity. }
  assert (Hfields : in_call n1 = true /\ call_partner n1 = Some caller
                    /\ peers n1 = peers n /\ username n1 = username n
                    /\ crypto n1 = crypto n).
  { rewrite Hn1. destruct (audio (audio_manager n)); repeat split. }
  destruct Hfields as (Hin & Hpartner & Hpeers & Hname & Hkeys).
  assert (Hsame : forall r t,
             datagram_to n1 e' r t "call" = datagram_to n e' r t "call").
  { intros r t. unfold datagram_to, packet_of.
    now rewrite Hpeers, Hname, Hkeys. }
  unfold n2. rewrite end_call_run, Hin.
  split; [unfold call_state; now rewrite Hin, Hpartner|].
  split; [reflexivity|]. split; [reflexivity|]. split; [exact Hpeers|].
  unfold trace_of at 1. cbn [snd].
  rewrite transmitted_app, Hpartner. cbn [truthy default].
  destruct (String.eqb caller ""); cbn [negb]; [reflexivity|].
  rewrite transmitted_send_message, Hsame. cbn. apply app_nil_r.
Qed.

(** X9. [accept_call] does not look at the fate of its [call_accepted]
    packet: for a caller that is not in the peer table nothing is sent, and
    yet it answers [True] and the node is in a call with that caller. *)
Theorem accept_call_succeeds_unsent `{prims : CryptoPrimitives}
        (e : env) (caller : string) (n : P2PNode) :
  in_call n = false ->
  peers n !! caller = None ->
  let run := accept_call e caller n in
  result_of run = Returned true
  /\ call_state (node_of run) = (true, Some caller)
  /\ transmitted (trace_of run) = [].
Proof.
  intros Hidle Hnew. cbv zeta. rewrite accept_call_run, Hidle. cbv zeta.
  rewrite send_message_run.
  cbn [peers set_call_partner set_in_call]. rewrite Hnew.
  unfold result_of, node_of, trace_of, call_state. cbn [fst snd].
  destruct (audio (audio_manager n)); repeat split.
Qed.


(** ** Receiving *)

Module StandardBase64.
Import Base64.

(** The URL-safe translations cancel on the characters that the encoder
    writes. *)
Lemma translation_cancels_b2a (s : N) :
  urlsafe_decode_translation (urlsafe_encode_translation (b2a s)) = b2a s.
Proof.
  destruct (N.lt_ge_cases s 64) as [Hlt|Hge].
  - pose proof (N_forall_below
      (fun s => Byte.eqb (sextet_char s) (b2a s)) 64
      ltac:(vm_compute; reflexivity) s Hlt) as H.
    now apply Byte.byte_dec_bl in H.
  - unfold b2a. rewrite nth_overflow; [reflexivity|].
    change (length table_b2a_base64) with 64. lia.
Qed.

Lemma translation_cancels (data : list byte) :
  map urlsafe_decode_translation
    (map urlsafe_encode_translation (b2a_base64 data))
  = b2a_base64 data.
Proof.
  induction data as [|a|a b|a b c rest IH] using Base64Facts.list_ind3;
    cbn [b2a_base64 map]; rewrite ?translation_cancels_b2a, ?IH;
    reflexivity.
Qed.

(** Round trip of the standard codec. *)
Lemma b64decode_b64encode (data : list byte) :
  b64decode (b64encode data) = Some data.
Proof.
  pose proof (Base64Facts.urlsafe_b64decode_encode data) as H.
  unfold urlsafe_b64decode, urlsafe_b64encode, b64encode in H.
  now rewrite translation_cancels in H.
Qed.

End StandardBase64.

(** X11. During a call, an [audio] packet from the call partner whose
    message is the base64 text of a chunk plays exactly that chunk (when a
    PyAudio device is there); the node is unchanged, nothing is logged and
    no callback runs. *)
Theorem inbound_audio_is_played `{prims : CryptoPrimitives}
        (partner recipient timestamp : string) (chunk : list byte)
        (from : string * Z) (n : P2PNode) :
  in_call n = true ->
  call_partner n = Some partner ->
  audio (audio_manager n) = true ->
  _handle_packet
    (inbound "audio" (PyStr partner) recipient
       (PyStr (string_of_list_byte (Base64.b64encode chunk))) timestamp)
    from n
  = (Returned tt, n, [PlayThread chunk]).
Proof.
  intros Hin Hpartner Haudio.
  unfold _handle_packet, inbound, bind, get, try_except, play_audio.
  cbn [dict_get String.eqb Ascii.eqb Bool.eqb py_eq_str].
  rewrite Hin, Hpartner. cbn [py_eq_partner andb].
  rewrite String.eqb_refl.
  unfold Utf8.encode. rewrite list_byte_of_string_of_list_byte.
  rewrite StandardBase64.b64decode_b64encode.
  unfold ret. cbn. rewrite Haudio. reflexivity.
Qed.

Section ReceiveFacts.
Context `{prims : CryptoPrimitives}.
Variable json_loads : string -> option pyval.


End ReceiveFacts.



(** ** Sizes of tokens and ciphertexts *)

Module DecodedLength.
Import Base64.



End DecodedLength.


Section SizeFacts.
Context `{laws : CryptoLaws}.

Lemma length_pad_blocks (data : list byte) :
  length (PKCS7.pad data) = 16 * (length data / 16 + 1).
Proof.
  unfold PKCS7.pad, PKCS7.block_size. rewrite length_app, repeat_length.
  pose proof (Nat.div_mod_eq (length data) 16).
  pose proof (Nat.mod_upper_bound (length data) 16 ltac:(lia)).
  lia.
Qed.

Lemma length_ciphertext (cm : CryptoManager) (e : entropy) (P : string) :
  length (os_urandom16 e) = 16 ->
  length (Utf8.encode (encrypt cm e P))
  = ciphertext_length (length (Utf8.encode P)).
Proof.
  intros Hiv. unfold encrypt, Utf8.encode at 1.
  rewrite list_byte_of_string_of_list_byte.
  rewrite Base64Facts.length_urlsafe_b64encode.
  unfold Fernet_encrypt_from_parts.
  rewrite Base64Facts.length_urlsafe_b64encode.
  rewrite length_app, hmac_length. cbn [length].
  rewrite !length_app, cbc_length, length_to_bytes_big, Hiv.
  rewrite length_pad_blocks.
  unfold ciphertext_length, b64_length.
  set (blocks := 16 * (length (Utf8.encode P) / 16 + 1)).
  replace (S (8 + (16 + blocks)) + 32) with (57 + blocks) by lia.
  reflexivity.
Qed.

Lemma b64_length_mono (n m : nat) : n <= m -> b64_length n <= b64_length m.
Proof.
  intros Hle. unfold b64_length.
  assert ((n + 2) / 3 <= (m + 2) / 3) by (apply Nat.Div0.div_le_mono; lia).
  lia.
Qed.

Lemma ciphertext_length_mono (n m : nat) :
  n <= m -> ciphertext_length n <= ciphertext_length m.
Proof.
  intros Hle. unfold ciphertext_length.
  apply b64_length_mono, b64_length_mono.
  assert (n / 16 <= m / 16) by (apply Nat.Div0.div_le_mono; lia).
  lia.
Qed.

End SizeFacts.

(** X15. The ciphertext of a text of [n] bytes has exactly
    [ciphertext_length n] characters: it depends on the length of the text
    only, and only through the number of 16-byte blocks. *)
Theorem ciphertext_has_a_fixed_length `{laws : CryptoLaws}
        (cm : CryptoManager) (e : entropy) (P : string) :
  length (os_urandom16 e) = 16 ->
  length (Utf8.encode (encrypt cm e P))
  = 4 * ((4 * ((57 + 16 * (length (Utf8.encode P) / 16 + 1) + 2) / 3) + 2) / 3).
Proof. intros Hiv. now rewrite length_ciphertext. Qed.

(** X16. The [message] field of the packet of a text of 2240 bytes or more,
    and of an audio chunk of 1678 bytes or more, is longer than the 4096
    bytes that [_listen] reads of a datagram. *)
Theorem long_messages_exceed_the_receive_buffer `{laws : CryptoLaws}
        (n : P2PNode) (e : env) (recipient text : string)
        (audio_data : list byte) :
  length (os_urandom16 (fernet_entropy e)) = 16 ->
  (2240 <= length (Utf8.encode text) ->
   exists field,
     message_field (packet_of n e recipient text "text") = PyStr field
     /\ RECV_BUFFER < length (Utf8.encode field))
  /\ (1678 <= length audio_data ->
      exists field,
        message_field
          (packet_of n e recipient
             (string_of_list_byte (Base64.b64encode audio_data)) "audio")
        = PyStr field
        /\ RECV_BUFFER < length (Utf8.encode field)).
Proof.
  intros Hiv.
  assert (Hbig : forall P, 2240 <= length (Utf8.encode P) ->
            RECV_BUFFER
            < length (Utf8.encode (encrypt (crypto n) (fernet_entropy e) P))).
  { intros P HP. rewrite length_ciphertext by exact Hiv.
    pose proof (ciphertext_length_mono _ _ HP) as Hmono.
    change (ciphertext_length 2240) with 4112 in Hmono.
    unfold RECV_BUFFER. lia. }
  split; intros Hlen; eexists; (split; [reflexivity|]); apply Hbig.
  - exact Hlen.
  - unfold Utf8.encode. rewrite list_byte_of_string_of_list_byte.
    unfold Base64.b64encode. rewrite Base64Facts.length_b2a_base64.
    assert (560 <= (length audio_data + 2) / 3).
    { apply (Nat.Div0.div_le_mono 1680 _ 3). lia. }
    lia.
Qed.

(** X17. Under one crypto manager and one draw of the clock and the IV,
    different texts have different ciphertexts. *)
Theorem encrypt_is_injective `{laws : CryptoLaws}
        (passphrase : string) (urandom16 : list byte) (cm : CryptoManager)
        (e : entropy) (P Q : string) :
  CryptoManager_init passphrase urandom16 = Some cm ->
  length (os_urandom16 e) = 16 ->
  Utf8.is_text P -> Utf8.is_text Q ->
  P <> Q ->
  encrypt cm e P <> encrypt cm e Q.
Proof.
  intros Hinit Hiv HP HQ Hne Heq. apply Hne.
  destruct (CryptoManager_init_total passphrase urandom16) as (cm' & Hcm & Hk).
  rewrite Hinit in Hcm. injection Hcm as <-.
  pose proof (decrypt_try_encrypt cm e P Hk Hiv HP) as H1.
  pose proof (decrypt_try_encrypt cm e Q Hk Hiv HQ) as H2.
  rewrite Heq in H1. congruence.
Qed.

(** X19. Every ciphertext of a text of less than 16 bytes, under every
    crypto manager, has a neighbour that differs from it in one byte and
    decrypts to the same text: the character before the two pads carries
    four bits that the base64 decoder drops. *)
Theorem every_short_ciphertext_is_malleable `{laws : CryptoLaws}
        (passphrase : string) (urandom16 : list byte) (cm : CryptoManager)
        (e : entropy) (P : string) :
  CryptoManager_init passphrase urandom16 = Some cm ->
  length (os_urandom16 e) = 16 ->
  Utf8.is_text P ->
  length (Utf8.encode P) < 16 ->
  exists c',
    single_byte_change (encrypt cm e P) c' = true
    /\ decrypt cm (PyStr c') = P.
Proof.
  intros Hinit Hiv HP Hshort.
  destruct (CryptoManager_init_total passphrase urandom16) as (cm' & Hcm & Hk).
  rewrite Hinit in Hcm. injection Hcm as <-.
  eexists. exact (short_ciphertext_is_malleable cm e P Hk Hiv HP Hshort).
Qed.

(** ** The peer list of the window *)




(** ** The further properties at concrete nodes *)

Lemma remove_peer_undoes_add_peer_witness :
  (peers Scenario.bob !! "zoe" = None
   /\ active_connections Scenario.bob !! "zoe" = None)
  /\ @remove_peer "zoe" Scenario.bob = (Returned tt, Scenario.bob, [])
  /\ node_of (@remove_peer "zoe"
                (node_of (@add_peer "zoe" "localhost" 5009%Z Scenario.bob)))
     = Scenario.bob.
Proof.
  split; [split; reflexivity|].
  apply (@remove_peer_undoes_add_peer Toy.primitives); reflexivity.
Defined.

Lemma every_listed_peer_is_online_witness :
  @P2PNode_init Toy.primitives "carol" "s3cret" (repeat x03 16) true 5002%Z
  = Some Life.carol
  /\ (let n := @after_all Toy.primitives Scenario.loads_accepted Life.day
                 Life.carol in
      peer_tables_agree n
      /\ Forall (fun line => exists u ip p, line = peer_line u ip p true)
                (update_peer_list n)).
Proof.
  split; [vm_compute; reflexivity|].
  apply (@every_listed_peer_is_online Toy.primitives Scenario.loads_accepted
           "carol" "s3cret" (repeat x03 16) true 5002%Z).
  vm_compute; reflexivity.
Defined.

Lemma microphone_only_in_call_witness :
  @P2PNode_init Toy.primitives "carol" "s3cret" (repeat x03 16) true 5002%Z
  = Some Life.carol
  /\ records_only_in_call
       (@after_all Toy.primitives Scenario.loads_accepted Life.day
          Life.carol).
Proof.
  split; [vm_compute; reflexivity|].
  apply (@microphone_only_in_call Toy.primitives Scenario.loads_accepted
           "carol" "s3cret" (repeat x03 16) true 5002%Z).
  vm_compute; reflexivity.
Defined.

Lemma peer_table_decides_delivery_witness :
  sendto_raises Scenario.world = false
  /\ (let n1 := node_of (@add_peer "zoe" "localhost" 5009%Z Scenario.bob) in
      let n2 := node_of (@remove_peer "zoe" n1) in
      @send_message Toy.primitives Scenario.world "zoe" "hello" "text" n1
      = (Returned true, n1,
         [Sendto (@packet_of Toy.primitives Scenario.bob Scenario.world
                    "zoe" "hello" "text") ("localhost", 5009%Z);
          LogInfo (SentMessage "text" "zoe")])
      /\ @send_message Toy.primitives Scenario.world "zoe" "hello" "text" n2
         = (Returned false, n2, [LogError (PeerNotFound "zoe")])).
Proof.
  split; [reflexivity|].
  apply (@peer_table_decides_delivery Toy.primitives). reflexivity.
Defined.

Lemma end_call_keeps_a_pending_request_witness :
  (in_call Scenario.alice = false
   /\ result_of (@start_call Toy.primitives Scenario.world "bob"
                   Scenario.alice) = Returned true)
  /\ (let n1 := node_of (@start_call Toy.primitives Scenario.world "bob"
                           Scenario.alice) in
      call_state n1 = (false, Some "bob")
      /\ @end_call Toy.primitives Scenario.world n1 = (Returned tt, n1, [])).
Proof.
  split; [split; vm_compute; reflexivity|].
  apply (@end_call_keeps_a_pending_request Toy.primitives);
    vm_compute; reflexivity.
Defined.

Lemma accept_then_end_call_is_idle_witness :
  in_call Scenario.alice = false
  /\ (let n1 := node_of (@accept_call Toy.primitives Scenario.world "bob"
                           Scenario.alice) in
      let n2 := node_of (@end_call Toy.primitives Scenario.world n1) in
      call_state n1 = (true, Some "bob")
      /\ call_state n2 = (false, None)
      /\ recording (audio_manager n2) = false
      /\ peers n2 = peers Scenario.alice
      /\ transmitted (trace_of (@end_call Toy.primitives Scenario.world n1))
         = (if String.eqb "bob" "" then []
            else @datagram_to Toy.primitives Scenario.alice Scenario.world
                   "bob" "call_ended" "call")).
Proof.
  split; [reflexivity|].
  apply (@accept_then_end_call_is_idle Toy.primitives). reflexivity.
Defined.

Lemma accept_call_succeeds_unsent_witness :
  (in_call Scenario.bob = false /\ peers Scenario.bob !! "mallory" = None)
  /\ (let run := @accept_call Toy.primitives Scenario.world "mallory"
                   Scenario.bob in
      result_of run = Returned true
      /\ call_state (node_of run) = (true, Some "mallory")
      /\ transmitted (trace_of run) = []).
Proof.
  split; [split; reflexivity|].
  apply (@accept_call_succeeds_unsent Toy.primitives); reflexivity.
Defined.

Lemma inbound_audio_is_played_witness :
  (in_call Scenario.alice_active = true
   /\ call_partner Scenario.alice_active = Some "bob"
   /\ audio (audio_manager Scenario.alice_active) = true)
  /\ @_handle_packet Toy.primitives
       (inbound "audio" (PyStr "bob") "alice"
          (PyStr (string_of_list_byte (Base64.b64encode [x01; x02; x03])))
          "2024-01-01T12:00:00")
       Scenario.from_anywhere Scenario.alice_active
     = (Returned tt, Scenario.alice_active, [PlayThread [x01; x02; x03]]).
Proof.
  split; [repeat split|].
  apply (@inbound_audio_is_played Toy.primitives); reflexivity.
Defined.



Lemma ciphertext_has_a_fixed_length_witness :
  length (os_urandom16 (fernet_entropy Scenario.world)) = 16
  /\ length (Utf8.encode
               (@encrypt Toy.primitives (crypto Scenario.alice)
                  (fernet_entropy Scenario.world) "hi"))
     = 4 * ((4 * ((57 + 16 * (length (Utf8.encode "hi") / 16 + 1) + 2) / 3)
             + 2) / 3).
Proof.
  split; [reflexivity|].
  apply (@ciphertext_has_a_fixed_length Toy.primitives ToyFacts.laws).
  reflexivity.
Defined.

Lemma long_messages_exceed_the_receive_buffer_witness :
  (length (os_urandom16 (fernet_entropy Scenario.world)) = 16
   /\ 2240 <= length (Utf8.encode Life.long_text)
   /\ 1678 <= length Life.capture_chunk)
  /\ (exists field,
        message_field
          (@packet_of Toy.primitives Scenario.alice Scenario.world "bob"
             Life.long_text "text") = PyStr field
        /\ RECV_BUFFER < length (Utf8.encode field))
  /\ (exists field,
        message_field
          (@packet_of Toy.primitives Scenario.alice Scenario.world "bob"
             (string_of_list_byte (Base64.b64encode Life.capture_chunk))
             "audio") = PyStr field
        /\ RECV_BUFFER < length (Utf8.encode field)).
Proof.
  assert (Hiv : length (os_urandom16 (fernet_entropy Scenario.world)) = 16)
    by reflexivity.
  assert (Htext : 2240 <= length (Utf8.encode Life.long_text)).
  { unfold Life.long_text, Utf8.encode.
    rewrite list_byte_of_string_of_list_byte, repeat_length. lia. }
  assert (Hchunk : 1678 <= length Life.capture_chunk).
  { unfold Life.capture_chunk. rewrite repeat_length. lia. }
  split; [auto|].
  destruct (@long_messages_exceed_the_receive_buffer Toy.primitives
              ToyFacts.laws Scenario.alice Scenario.world "bob"
              Life.long_text Life.capture_chunk Hiv) as [Ht Ha].
  split; [exact (Ht Htext) | exact (Ha Hchunk)].
Defined.

Lemma encrypt_is_injective_witness :
  (@CryptoManager_init Toy.primitives "hunter2" (repeat x01 16)
   = Some (crypto Scenario.alice)
   /\ length (os_urandom16 (fernet_entropy Scenario.world)) = 16
   /\ Utf8.is_text "hi" /\ Utf8.is_text "ho"
   /\ "hi" <> "ho")
  /\ @encrypt Toy.primitives (crypto Scenario.alice)
       (fernet_entropy Scenario.world) "hi"
     <> @encrypt Toy.primitives (crypto Scenario.alice)
          (fernet_entropy Scenario.world) "ho".
Proof.
  split; [repeat split; try (vm_compute; reflexivity); discriminate|].
  apply (@encrypt_is_injective Toy.primitives ToyFacts.laws
           "hunter2" (repeat x01 16) (crypto Scenario.alice)
           (fernet_entropy Scenario.world));
    try (vm_compute; reflexivity); discriminate.
Defined.


Lemma every_short_ciphertext_is_malleable_witness :
  (@CryptoManager_init Toy.primitives "hunter2" (repeat x01 16)
   = Some (crypto Scenario.alice)
   /\ length (os_urandom16 (fernet_entropy Scenario.world)) = 16
   /\ Utf8.is_text "hi"
   /\ length (Utf8.encode "hi") < 16)
  /\ exists c',
       single_byte_change
         (@encrypt Toy.primitives (crypto Scenario.alice)
            (fernet_entropy Scenario.world) "hi") c' = true
       /\ @decrypt Toy.primitives (crypto Scenario.alice) (PyStr c') = "hi".
Proof.
  split; [repeat split; try (vm_compute; reflexivity); vm_compute; lia|].
  apply (@every_short_ciphertext_is_malleable Toy.primitives ToyFacts.laws
           "hunter2" (repeat x01 16));
    try (vm_compute; reflexivity); vm_compute; lia.
Defined.
